(** * Revenue cycle analyzer: a shallow embedding of
      [scripts/revenue_analyzer.py] and the properties of its four analyses
      and of the executive summary.

    The program is a sequence of SQL queries run through a gateway and a
    text report built from their results.  The embedding keeps that shape:

    - the relational store is a record of four tables (lists of rows), the
      database's current date, and the ways the store can fail;
    - SQL expressions are evaluated with their NULL semantics ([option]),
      three-valued logic, aggregates and a division that raises on a zero
      divisor;
    - NUMERIC values are exact rationals ([Q], kept in lowest terms); ROUND
      rounds half away from zero as PostgreSQL does for NUMERIC;
    - the methods of [RevenueCycleAnalyzer] are state-passing functions over
      the object's connection handle, the driver's open connections and the
      log, with exceptions as a [Raise] result. *)

From Stdlib Require Import ZArith QArith Qround Qabs String Ascii List Lia Lqa.
From stdpp Require Import base option list gmap strings sorting pretty.

Local Open Scope string_scope.
Local Open Scope Z_scope.

(** ** Exceptions and results *)

Inductive error :=
  | ConnectionError      (* psycopg2.connect failed *)
  | QueryError           (* the store rejected or lost the query *)
  | InvalidDate          (* a date parameter that is not YYYY-MM-DD *)
  | DivisionByZero.      (* SQL division by zero *)

Inductive result (A : Type) :=
  | Ok (a : A)
  | Raise (e : error).
Arguments Ok {A} a.
Arguments Raise {A} e.

Definition rbind {A B} (r : result A) (k : A → result B) : result B :=
  match r with
  | Ok a => k a
  | Raise e => Raise e
  end.

Declare Scope result_scope.
Delimit Scope result_scope with res.
Notation "x ←ᵣ r ; k" := (rbind r (λ x, k))
  (at level 100, r at next level, k at level 200, right associativity,
   format "x  ←ᵣ  r ;  '/' k") : result_scope.

Definition is_ok {A} (r : result A) : bool :=
  match r with Ok _ => true | Raise _ => false end.

(** ** Calendar dates

    A DATE is a day number (days since 1970-01-01).  [DATE - DATE] is the
    integer difference, [DATE - INTERVAL 'n days'] a subtraction; an interval
    in months goes through the civil calendar. *)

Module Calendar.

Record civil := { year : Z; month : Z; day : Z }.

Definition is_leap (y : Z) : bool :=
  (y mod 4 =? 0) && (negb (y mod 100 =? 0) || (y mod 400 =? 0)).

Definition days_in_month (y m : Z) : Z :=
  if m =? 2 then (if is_leap y then 29 else 28)
  else if (m =? 4) || (m =? 6) || (m =? 9) || (m =? 11) then 30
  else 31.

Definition valid (c : civil) : bool :=
  (1 <=? month c) && (month c <=? 12) &&
  (1 <=? day c) && (day c <=? days_in_month (year c) (month c)).

(** Day number of a civil date (proleptic Gregorian calendar). *)
Definition days_from_civil (c : civil) : Z :=
  let y := if month c <=? 2 then year c - 1 else year c in
  let era := y / 400 in
  let yoe := y - era * 400 in
  let mp := if month c <=? 2 then month c + 9 else month c - 3 in
  let doy := (153 * mp + 2) / 5 + day c - 1 in
  let doe := yoe * 365 + yoe / 4 - yoe / 100 + doy in
  era * 146097 + doe - 719468.

Definition civil_from_days (n : Z) : civil :=
  let z := n + 719468 in
  let era := z / 146097 in
  let doe := z - era * 146097 in
  let yoe := (doe - doe / 1460 + doe / 36524 - doe / 146096) / 365 in
  let doy := doe - (365 * yoe + yoe / 4 - yoe / 100) in
  let mp := (5 * doy + 2) / 153 in
  let d := doy - (153 * mp + 2) / 5 + 1 in
  let m := if mp <? 10 then mp + 3 else mp - 9 in
  let y := yoe + era * 400 in
  {| year := if m <=? 2 then y + 1 else y; month := m; day := d |}.

(** [d - INTERVAL 'n months']: move the month back and clamp the day to the
    length of the month reached. *)
Definition minus_months (d : Z) (n : Z) : Z :=
  let c := civil_from_days d in
  let k := year c * 12 + (month c - 1) - n in
  let y := k / 12 in
  let m := k mod 12 + 1 in
  days_from_civil
    {| year := y; month := m; day := Z.min (day c) (days_in_month y m) |}.

(** Decimal digits. *)
Definition digit_of (a : ascii) : option Z :=
  let n := Z.of_nat (nat_of_ascii a) in
  if (48 <=? n) && (n <=? 57) then Some (n - 48) else None.

Fixpoint digits_value (acc : Z) (s : string) : option Z :=
  match s with
  | EmptyString => Some acc
  | String a s' =>
      match digit_of a with
      | Some d => digits_value (acc * 10 + d) s'
      | None => None
      end
  end.

(** The documented parameter format, [YYYY-MM-DD]. *)
Definition parse_date (s : string) : option Z :=
  if negb (Nat.eqb (String.length s) 10) then None
  else if negb (String.eqb (substring 4 1 s) "-") then None
  else if negb (String.eqb (substring 7 1 s) "-") then None
  else
    match digits_value 0 (substring 0 4 s),
          digits_value 0 (substring 5 2 s),
          digits_value 0 (substring 8 2 s) with
    | Some y, Some m, Some d =>
        let c := {| year := y; month := m; day := d |} in
        if valid c then Some (days_from_civil c) else None
    | _, _, _ => None
    end.

End Calendar.

(** ** SQL values and expressions *)

Module Sql.

(** *** NUMERIC: exact rationals in lowest terms.

    PostgreSQL carries NUMERIC quotients to at least sixteen significant
    digits; the embedding keeps them exact. *)

Definition nadd (a b : Q) : Q := Qred (a + b).
Definition nsub (a b : Q) : Q := Qred (a - b).
Definition nmul (a b : Q) : Q := Qred (a * b).
Definition nabs (a : Q) : Q := Qred (Qabs a).
Definition of_int (n : Z) : Q := inject_Z n.

(** Nearest integer, ties away from zero. *)
Definition round_half_away (q : Q) : Z :=
  if Qle_bool 0 q then Qfloor (q + (1 # 2)) else - Qfloor (- q + (1 # 2)).

(** [ROUND(q, k)]. *)
Definition round (q : Q) (k : nat) : Q :=
  Qred (Qmake (round_half_away (q * inject_Z (10 ^ Z.of_nat k)))
              (Z.to_pos (10 ^ Z.of_nat k))).

(** *** NULL: a nullable value is an [option]; operators are strict. *)

Definition lift2 {A B C} (f : A → B → C) (a : option A) (b : option B) : option C :=
  match a, b with
  | Some x, Some y => Some (f x y)
  | _, _ => None
  end.

Definition add := lift2 nadd.
Definition sub := lift2 nsub.
Definition mul := lift2 nmul.
Definition abs (a : option Q) : option Q := nabs <$> a.
Definition round_to (k : nat) (a : option Q) : option Q := (λ q, round q k) <$> a.

(** [a / b]: NULL when an operand is NULL, an error when [b] is zero. *)
Definition div (a b : option Q) : result (option Q) :=
  match a, b with
  | Some x, Some y =>
      if Qeq_bool y 0 then Raise DivisionByZero else Ok (Some (Qred (x / y)))
  | _, _ => Ok None
  end.

(** [NULLIF(a, v)] and [COALESCE(a, d)]. *)
Definition nullif (a : option Q) (v : Q) : option Q :=
  match a with
  | Some x => if Qeq_bool x v then None else Some x
  | None => None
  end.
Definition coalesce {A} (a : option A) (d : A) : A := default d a.

(** *** Three-valued logic *)

Definition tv := option bool.

Definition not (a : tv) : tv := negb <$> a.
Definition and (a b : tv) : tv :=
  match a, b with
  | Some false, _ | _, Some false => Some false
  | Some true, Some true => Some true
  | _, _ => None
  end.

(** WHERE, HAVING and CASE WHEN take a row only when the condition is TRUE. *)
Definition holds (a : tv) : bool :=
  match a with Some true => true | _ => false end.

Definition ge (a b : option Q) : tv := lift2 (λ x y, Qle_bool y x) a b.
Definition le (a b : option Q) : tv := lift2 Qle_bool a b.
Definition gt (a b : option Q) : tv := lift2 (λ x y, negb (Qle_bool x y)) a b.

(** [CASE WHEN c1 THEN v1 ... [ELSE d] END]: the first branch whose condition
    is TRUE; without ELSE the default is NULL. *)
Fixpoint case_when {A} (branches : list (tv * A)) (dflt : A) : A :=
  match branches with
  | [] => dflt
  | (c, v) :: rest => if holds c then v else case_when rest dflt
  end.

(** *** Aggregates over the values of a group *)

(** [COUNT(expr)]: the non-NULL values. *)
Definition count {A} (l : list (option A)) : Z :=
  Z.of_nat (length (omap id l)).

(** [COUNT(DISTINCT expr)]. *)
Definition count_distinct {A} `{EqDecision A} (l : list (option A)) : Z :=
  Z.of_nat (length (remove_dups (omap id l))).

(** [COUNT(CASE WHEN c THEN 1 END)]: the rows where [c] is TRUE. *)
Definition count_when (l : list tv) : Z :=
  Z.of_nat (length (filter (λ c, holds c = true) l)).

(** [SUM(expr)]: NULL when there is no non-NULL value. *)
Definition sum (l : list (option Q)) : option Q :=
  match omap id l with
  | [] => None
  | x :: xs => Some (foldl nadd x xs)
  end.

(** [AVG(expr)]. *)
Definition avg (l : list (option Q)) : option Q :=
  match sum l with
  | Some s => Some (Qred (s / inject_Z (count l)))
  | None => None
  end.

(** [ORDER BY key DESC]: PostgreSQL puts NULLs first in descending order. *)
Definition desc (a b : option Q) : bool :=
  match a, b with
  | None, _ => true
  | Some _, None => false
  | Some x, Some y => Qle_bool y x
  end.

Definition desc_by {A} (key : A → option Q) : relation A :=
  λ r1 r2, desc (key r1) (key r2) = true.

#[global] Instance desc_by_dec {A} (key : A → option Q) (x y : A) :
  Decision (desc_by key x y) := decide (desc (key x) (key y) = true).

Definition order_by_desc {A} (key : A → option Q) (rows : list A) : list A :=
  merge_sort (desc_by key) rows.

(** [GROUP BY key]: one group per distinct key, in order of first appearance. *)
Definition group_by {A K} `{EqDecision K} (key : A → K) (rows : list A)
  : list (K * list A) :=
  (λ k, (k, filter (λ r, key r = k) rows)) <$> remove_dups (key <$> rows).

(** [STRING_AGG(DISTINCT s, sep)]: the distinct values in sorted order. *)
Fixpoint join (sep : string) (l : list string) : string :=
  match l with
  | [] => ""
  | [s] => s
  | s :: rest => s +:+ sep +:+ join sep rest
  end.

Definition text_le : relation string := λ a b, String.leb a b = true.

#[global] Instance text_le_dec (a b : string) : Decision (text_le a b) :=
  decide (String.leb a b = true).

Definition string_agg_distinct (l : list string) (sep : string) : option string :=
  match l with
  | [] => None
  | _ => Some (join sep (merge_sort text_le (remove_dups l)))
  end.

(** [s LIKE 'p%']. *)
Definition like_prefix (p : string) (s : option string) : tv :=
  String.prefix p <$> s.
Definition text_eq (s : option string) (v : string) : tv :=
  (λ x, String.eqb x v) <$> s.
Definition bool_eq (b : tv) (v : bool) : tv :=
  (λ x, Bool.eqb x v) <$> b.

(** The rate pattern of every analysis,
    [ROUND((a / NULLIF(b, 0)) * 100, 2)]. *)
Definition pct (a b : option Q) : result (option Q) :=
  rbind (div a (nullif b 0)) (λ q, Ok (round_to 2 (mul q (Some 100%Q)))).

End Sql.

(** Every row of a list is evaluated; the first error aborts the query. *)
Fixpoint rmap {A B} (f : A → result B) (l : list A) : result (list B) :=
  match l with
  | [] => Ok []
  | x :: rest =>
      rbind (f x) (λ y, rbind (rmap f rest) (λ ys, Ok (y :: ys)))
  end.

(** ** The relational store

    Keys, status and the dates a row is filed under are NOT NULL; amounts,
    payment dates, free text and flags are nullable, as the queries treat
    them (COALESCE, IS NOT NULL, CASE without ELSE). *)

Module Claim.
Record t := {
  claim_id : Z;
  patient_id : Z;
  payer_id : Z;
  status : string;
  charge_amount : option Q;
  allowed_amount : option Q;
  paid_amount : option Q;
  adjustment_amount : option Q;
  patient_responsibility : option Q;
  submission_date : Z;
  payment_date : option Z }.
End Claim.

Module Denial.
Record t := {
  denial_id : Z;
  claim_id : Z;
  denial_category : string;
  denial_reason_code : string;
  denial_reason_description : string;
  denied_amount : option Q;
  work_status : option string;
  resolution_type : option string;
  recovered_amount : option Q;
  preventable : option bool;
  denial_date : Z }.
End Denial.

Module Payer.
Record t := {
  payer_id : Z;
  payer_name : string;
  payer_type : string }.
End Payer.

Module Encounter.
Record t := {
  encounter_id : Z;
  patient_id : Z;
  provider_id : Z;
  encounter_date : Z;
  expected_charge : option Q;
  documentation_complete : option bool;
  coding_complete : option bool;
  charge_entered : option bool;
  claim_generated : option bool }.
End Encounter.

Record store := {
  claims : list Claim.t;
  denials : list Denial.t;
  payers : list Payer.t;
  encounters : list Encounter.t;
  current_date : Z }.

(** ** Query of [calculate_revenue_metrics] *)

Module Kpi.

Record t := {
  total_claims : Z;
  paid_claims : Z;
  denied_claims : Z;
  total_charges : option Q;
  total_allowed : option Q;
  total_payments : option Q;
  total_adjustments : option Q;
  avg_days_to_payment : option Q;
  total_ar : option Q;
  ar_over_90 : option Q;
  clean_claim_rate : option Q;
  denial_rate : option Q;
  net_collection_rate : option Q;
  gross_collection_rate : option Q;
  ar_over_90_pct : option Q;
  days_in_ar : option Q }.

(** [WHERE submission_date BETWEEN %s AND %s]. *)
Definition in_window (start_ end_ : Z) (c : Claim.t) : bool :=
  (start_ <=? Claim.submission_date c) && (Claim.submission_date c <=? end_).

(** [CASE WHEN status = v THEN claim_id END]. *)
Definition id_when_status (v : string) (c : Claim.t) : option Z :=
  Sql.case_when
    [(Sql.text_eq (Some (Claim.status c)) v, Some (Claim.claim_id c))] None.

(** [CASE WHEN payment_date IS NOT NULL THEN payment_date - submission_date END]. *)
Definition days_to_payment (c : Claim.t) : option Q :=
  (λ p, Sql.of_int (p - Claim.submission_date c)) <$> Claim.payment_date c.

(** [WHERE status NOT IN ('PAID', 'WRITTEN_OFF')]. *)
Definition is_open (c : Claim.t) : bool :=
  negb (String.eqb (Claim.status c) "PAID" || String.eqb (Claim.status c) "WRITTEN_OFF").

(** [charge_amount - COALESCE(paid_amount, 0)]. *)
Definition outstanding (c : Claim.t) : option Q :=
  Sql.sub (Claim.charge_amount c) (Some (Sql.coalesce (Claim.paid_amount c) 0%Q)).

(** [CASE WHEN CURRENT_DATE - submission_date > 90 THEN ... ELSE 0 END]. *)
Definition outstanding_over_90 (today : Z) (c : Claim.t) : option Q :=
  Sql.case_when
    [(Some (90 <? today - Claim.submission_date c), outstanding c)] (Some 0%Q).

(** [ROUND(total_ar / ((total_payments * 365.0) / (DATE end - DATE start)), 2)]. *)
Definition days_in_ar_expr (ar payments : option Q) (start_ end_ : Z)
  : result (option Q) :=
  rbind (Sql.div (Sql.mul payments (Some 365%Q)) (Some (Sql.of_int (end_ - start_))))
    (λ per_year, rbind (Sql.div ar per_year) (λ q, Ok (Sql.round_to 2 q))).

(** The rows of [claim_summary] and of [ar_summary]. *)
Definition window (db : store) (start_ end_ : Z) : list Claim.t :=
  filter (λ c, in_window start_ end_ c = true) (claims db).
Definition open_claims (db : store) : list Claim.t :=
  filter (λ c, is_open c = true) (claims db).

Definition query (db : store) (start_ end_ : Z) : result (list t) :=
  let cs := window db start_ end_ in
  let ar := open_claims db in
  let total := Sql.count_distinct ((λ c, Some (Claim.claim_id c)) <$> cs) in
  let paid := Sql.count_distinct (id_when_status "PAID" <$> cs) in
  let denied := Sql.count_distinct (id_when_status "DENIED" <$> cs) in
  let charges := Sql.sum (Claim.charge_amount <$> cs) in
  let allowed := Sql.sum (Claim.allowed_amount <$> cs) in
  let payments := Sql.sum (Claim.paid_amount <$> cs) in
  let adjustments := Sql.sum (Claim.adjustment_amount <$> cs) in
  let avg_days := Sql.avg (days_to_payment <$> cs) in
  let ar_total := Sql.sum (outstanding <$> ar) in
  let ar_90 := Sql.sum (outstanding_over_90 (current_date db) <$> ar) in
  rbind (Sql.pct (Some (Sql.of_int paid)) (Some (Sql.of_int total))) (λ clean,
  rbind (Sql.pct (Some (Sql.of_int denied)) (Some (Sql.of_int total))) (λ den,
  rbind (Sql.pct payments allowed) (λ net,
  rbind (Sql.pct payments charges) (λ gross,
  rbind (Sql.pct ar_90 ar_total) (λ over,
  rbind (days_in_ar_expr ar_total payments start_ end_) (λ dar,
  Ok [ {| total_claims := total; paid_claims := paid; denied_claims := denied;
          total_charges := charges; total_allowed := allowed;
          total_payments := payments; total_adjustments := adjustments;
          avg_days_to_payment := avg_days;
          total_ar := ar_total; ar_over_90 := ar_90;
          clean_claim_rate := clean; denial_rate := den;
          net_collection_rate := net; gross_collection_rate := gross;
          ar_over_90_pct := over; days_in_ar := dar |} ])))))).

End Kpi.

(** ** Query of [analyze_denial_patterns] *)

Module DenialPattern.

Record t := {
  denial_category : string;
  denial_reason_code : string;
  denial_reason_description : string;
  denial_count : Z;
  total_denied : option Q;
  avg_denied : option Q;
  resolved : Z;
  appeals_won : Z;
  amount_recovered : option Q;
  appeal_success_rate : option Q;
  preventable_count : Z;
  preventable_pct : option Q;
  top_payers : option string }.

(** [denials d JOIN claims c ON ... JOIN payers p ON ...]. *)
Definition joined (db : store) : list (Denial.t * Claim.t * Payer.t) :=
  d ← denials db;
  c ← filter (λ c, Claim.claim_id c = Denial.claim_id d) (claims db);
  p ← filter (λ p, Payer.payer_id p = Claim.payer_id c) (payers db);
  [(d, c, p)].

Definition den (r : Denial.t * Claim.t * Payer.t) : Denial.t := r.1.1.
Definition pay (r : Denial.t * Claim.t * Payer.t) : Payer.t := r.2.

Definition group_key (r : Denial.t * Claim.t * Payer.t) : string * string * string :=
  (Denial.denial_category (den r), Denial.denial_reason_code (den r),
   Denial.denial_reason_description (den r)).

Definition won (r : Denial.t * Claim.t * Payer.t) : Sql.tv :=
  Sql.text_eq (Denial.resolution_type (den r)) "APPEALED_WON".

(** One output row per group. *)
Definition aggregate (k : string * string * string)
    (g : list (Denial.t * Claim.t * Payer.t)) : result t :=
  let n_won := Sql.count_when (won <$> g) in
  let n_appealed :=
    Sql.count_when ((λ r, Sql.like_prefix "APPEALED" (Denial.resolution_type (den r))) <$> g) in
  let n_prev :=
    Sql.count_when ((λ r, Sql.bool_eq (Denial.preventable (den r)) true) <$> g) in
  rbind (Sql.pct (Some (Sql.of_int n_won)) (Some (Sql.of_int n_appealed))) (λ success,
  rbind (Sql.pct (Some (Sql.of_int n_prev)) (Some (Sql.of_int (Z.of_nat (length g))))) (λ prev,
  Ok {| denial_category := k.1.1;
        denial_reason_code := k.1.2;
        denial_reason_description := k.2;
        denial_count :=
          Sql.count_distinct ((λ r, Some (Denial.denial_id (den r))) <$> g);
        total_denied := Sql.sum ((λ r, Denial.denied_amount (den r)) <$> g);
        avg_denied := Sql.round_to 2 (Sql.avg ((λ r, Denial.denied_amount (den r)) <$> g));
        resolved :=
          Sql.count_when ((λ r, Sql.text_eq (Denial.work_status (den r)) "RESOLVED") <$> g);
        appeals_won := n_won;
        amount_recovered :=
          Sql.sum ((λ r, Sql.case_when
                           [(won r, Denial.recovered_amount (den r))] (Some 0%Q)) <$> g);
        appeal_success_rate := success;
        preventable_count := n_prev;
        preventable_pct := prev;
        top_payers :=
          Sql.string_agg_distinct ((λ r, Payer.payer_name (pay r)) <$> g) ", " |})).

Definition query (db : store) (lookback_months : Z) : result (list t) :=
  let cutoff := Calendar.minus_months (current_date db) lookback_months in
  let rows := filter (λ r, cutoff ≤ Denial.denial_date (den r)) (joined db) in
  let groups := Sql.group_by group_key rows in
  (* HAVING COUNT(d.denial_id) >= 5 *)
  let kept :=
    filter (λ kg, 5 ≤ Sql.count ((λ r, Some (Denial.denial_id (den r))) <$> kg.2)) groups in
  rbind (rmap (λ kg, aggregate kg.1 kg.2) kept) (λ out,
  Ok (Sql.order_by_desc total_denied out)).

End DenialPattern.

(** ** Queries of [identify_revenue_leakage] *)

Module Unbilled.

Record t := {
  encounter_id : Z;
  patient_id : Z;
  provider_id : Z;
  encounter_date : Z;
  expected_charge : option Q;
  days_unbilled : Z;
  bottleneck : option string }.

(** The CASE of the select list; it has no ELSE. *)
Definition bottleneck_of (e : Encounter.t) : option string :=
  Sql.case_when
    [ (Sql.not (Encounter.documentation_complete e), Some "Missing Documentation");
      (Sql.not (Encounter.coding_complete e), Some "Coding Incomplete");
      (Sql.not (Encounter.charge_entered e), Some "Charges Not Entered");
      (Sql.not (Encounter.claim_generated e), Some "Claim Not Generated") ]
    None.

Definition selected (today : Z) (e : Encounter.t) : bool :=
  (today - 90 <=? Encounter.encounter_date e) &&
  (Encounter.encounter_date e <=? today - 7) &&
  Sql.holds (Sql.not (Encounter.claim_generated e)).

Definition row_of (today : Z) (e : Encounter.t) : t :=
  {| encounter_id := Encounter.encounter_id e;
     patient_id := Encounter.patient_id e;
     provider_id := Encounter.provider_id e;
     encounter_date := Encounter.encounter_date e;
     expected_charge := Encounter.expected_charge e;
     days_unbilled := today - Encounter.encounter_date e;
     bottleneck := bottleneck_of e |}.

Definition query (db : store) : result (list t) :=
  Ok (Sql.order_by_desc expected_charge
        (row_of (current_date db) <$>
           filter (λ e, selected (current_date db) e = true) (encounters db))).

End Unbilled.

Module Underpayment.

Record t := {
  claim_id : Z;
  patient_id : Z;
  payer_name : string;
  submission_date : Z;
  allowed_amount : option Q;
  patient_responsibility : option Q;
  paid_amount : option Q;
  expected_payment : option Q;
  variance : option Q;
  variance_pct : option Q }.

(** The CTE [payment_variance]. *)
Definition selected (today : Z) (c : Claim.t) : bool :=
  String.eqb (Claim.status c) "PAID" &&
  match Claim.payment_date c with
  | Some p => today - 90 <=? p
  | None => false
  end &&
  bool_decide (is_Some (Claim.allowed_amount c)).

Definition expected_of (c : Claim.t) : option Q :=
  Sql.sub (Claim.allowed_amount c)
          (Some (Sql.coalesce (Claim.patient_responsibility c) 0%Q)).

Definition variance_of (c : Claim.t) : option Q :=
  Sql.sub (expected_of c) (Claim.paid_amount c).

Definition payment_variance (db : store) : list (Claim.t * Payer.t) :=
  c ← filter (λ c, selected (current_date db) c = true) (claims db);
  p ← filter (λ p, Payer.payer_id p = Claim.payer_id c) (payers db);
  [(c, p)].

Definition row_of (cp : Claim.t * Payer.t) : result t :=
  let c := cp.1 in
  rbind (Sql.pct (variance_of c) (expected_of c)) (λ vp,
  Ok {| claim_id := Claim.claim_id c;
        patient_id := Claim.patient_id c;
        payer_name := Payer.payer_name cp.2;
        submission_date := Claim.submission_date c;
        allowed_amount := Claim.allowed_amount c;
        patient_responsibility := Claim.patient_responsibility c;
        paid_amount := Claim.paid_amount c;
        expected_payment := expected_of c;
        variance := variance_of c;
        variance_pct := vp |}).

Definition query (db : store) : result (list t) :=
  (* WHERE ABS(variance) > 10 *)
  let kept :=
    filter (λ cp, Sql.holds (Sql.gt (Sql.abs (variance_of cp.1)) (Some 10%Q)) = true)
           (payment_variance db) in
  rbind (rmap row_of kept) (λ out,
  Ok (Sql.order_by_desc (λ r, Sql.abs (variance r)) out)).

End Underpayment.

Module OldAr.

Record t := {
  claim_id : Z;
  patient_id : Z;
  payer_id : Z;
  submission_date : Z;
  outstanding : option Q;
  days_outstanding : Z;
  status : string }.

Definition selected (today : Z) (c : Claim.t) : bool :=
  Kpi.is_open c &&
  (90 <? today - Claim.submission_date c) &&
  Sql.holds (Sql.gt (Kpi.outstanding c) (Some 0%Q)).

Definition row_of (today : Z) (c : Claim.t) : t :=
  {| claim_id := Claim.claim_id c;
     patient_id := Claim.patient_id c;
     payer_id := Claim.payer_id c;
     submission_date := Claim.submission_date c;
     outstanding := Kpi.outstanding c;
     days_outstanding := today - Claim.submission_date c;
     status := Claim.status c |}.

Definition query (db : store) : result (list t) :=
  Ok (Sql.order_by_desc outstanding
        (row_of (current_date db) <$>
           filter (λ c, selected (current_date db) c = true) (claims db))).

End OldAr.

(** ** Query of [payer_performance_analysis] *)

Module Scorecard.

Record t := {
  payer_name : string;
  payer_type : string;
  total_claims : Z;
  total_payments : option Q;
  reimbursement_rate : option Q;
  denial_rate : option Q;
  clean_claim_rate : option Q;
  avg_days_to_payment : option Q;
  performance_rating : string }.

(** The CTE [payer_metrics], one row per payer. *)
Record metrics := {
  m_payer_id : Z;
  m_payer_name : string;
  m_payer_type : string;
  m_total_claims : Z;
  m_total_charges : option Q;
  m_total_allowed : option Q;
  m_total_payments : option Q;
  m_denials : Z;
  m_avg_days_to_payment : option Q;
  m_clean_claims : Z }.

Definition joined (db : store) : list (Payer.t * Claim.t) :=
  let cutoff := Calendar.minus_months (current_date db) 12 in
  p ← payers db;
  c ← filter (λ c, Claim.payer_id c = Payer.payer_id p) (claims db);
  if decide (cutoff ≤ Claim.submission_date c) then [(p, c)] else [].

Definition group_key (r : Payer.t * Claim.t) : Z * string * string :=
  (Payer.payer_id r.1, Payer.payer_name r.1, Payer.payer_type r.1).

(** [status = 'PAID' AND claim_id NOT IN (SELECT claim_id FROM denials)]. *)
Definition is_clean (db : store) (c : Claim.t) : Sql.tv :=
  Sql.and (Sql.text_eq (Some (Claim.status c)) "PAID")
          (Some (bool_decide (Claim.claim_id c ∉ Denial.claim_id <$> denials db))).

Definition payer_metrics (db : store) : list metrics :=
  (λ kg : (Z * string * string) * list (Payer.t * Claim.t),
     let cs := snd <$> kg.2 in
     {| m_payer_id := kg.1.1.1;
        m_payer_name := kg.1.1.2;
        m_payer_type := kg.1.2;
        m_total_claims := Sql.count_distinct ((λ c, Some (Claim.claim_id c)) <$> cs);
        m_total_charges := Sql.sum (Claim.charge_amount <$> cs);
        m_total_allowed := Sql.sum (Claim.allowed_amount <$> cs);
        m_total_payments := Sql.sum (Claim.paid_amount <$> cs);
        m_denials :=
          Sql.count_when ((λ c, Sql.text_eq (Some (Claim.status c)) "DENIED") <$> cs);
        m_avg_days_to_payment := Sql.round_to 1 (Sql.avg (Kpi.days_to_payment <$> cs));
        m_clean_claims := Sql.count_when (is_clean db <$> cs) |})
  <$> Sql.group_by group_key (joined db).

(** The CASE that assigns [performance_rating]. *)
Definition rating (reimbursement denial avg_days : option Q) : string :=
  Sql.case_when
    [ (Sql.and (Sql.and (Sql.ge reimbursement (Some 95%Q))
                        (Sql.le denial (Some 5%Q)))
               (Sql.le avg_days (Some 30%Q)), "Excellent");
      (Sql.and (Sql.ge reimbursement (Some 85%Q)) (Sql.le denial (Some 10%Q)), "Good");
      (Sql.and (Sql.ge reimbursement (Some 75%Q)) (Sql.le denial (Some 15%Q)), "Fair") ]
    "Poor".

Definition row_of (m : metrics) : result t :=
  rbind (Sql.pct (m_total_payments m) (m_total_allowed m)) (λ reimb,
  rbind (Sql.pct (Some (Sql.of_int (m_denials m))) (Some (Sql.of_int (m_total_claims m)))) (λ den,
  rbind (Sql.pct (Some (Sql.of_int (m_clean_claims m))) (Some (Sql.of_int (m_total_claims m)))) (λ clean,
  Ok {| payer_name := m_payer_name m;
        payer_type := m_payer_type m;
        total_claims := m_total_claims m;
        total_payments := m_total_payments m;
        reimbursement_rate := reimb;
        denial_rate := den;
        clean_claim_rate := clean;
        avg_days_to_payment := m_avg_days_to_payment m;
        performance_rating := rating reimb den (m_avg_days_to_payment m) |}))).

Definition query (db : store) : result (list t) :=
  (* WHERE total_claims >= 100 *)
  let kept := filter (λ m, 100 ≤ m_total_claims m) (payer_metrics db) in
  rbind (rmap row_of kept) (λ out,
  Ok (Sql.order_by_desc total_payments out)).

End Scorecard.

(** ** Python string formatting

    Numbers are formatted from their exact value, ties to even, which is
    what [format] does for a decimal; a NULL numeric reaches the report as
    NaN and prints as [nan]. *)

Module Fmt.

Definition nl : string := String (ascii_of_nat 10) EmptyString.

Fixpoint repeat_string (n : nat) (s : string) : string :=
  match n with
  | O => ""
  | S n' => s +:+ repeat_string n' s
  end.

(** Zero padding on the left, as [%02d]. *)
Definition pad_left (width : nat) (s : string) : string :=
  repeat_string (width - String.length s) "0" +:+ s.

(** Thousands separators of the [,] option. *)
Fixpoint grouped_fuel (fuel : nat) (n : N) : string :=
  match fuel with
  | O => pretty n
  | S fuel' =>
      if (n <? 1000)%N then pretty n
      else grouped_fuel fuel' (n / 1000)%N +:+ "," +:+ pad_left 3 (pretty (n mod 1000)%N)
  end.
Definition grouped (n : N) : string := grouped_fuel (N.size_nat n) n.

(** [{n:,}] and [{n}] for an integer. *)
Definition int_commas (n : Z) : string :=
  (if n <? 0 then "-" else "") +:+ grouped (Z.abs_N n).
Definition int_plain (n : Z) : string := pretty n.

(** Nearest integer, ties to even. *)
Definition round_half_even (q : Q) : Z :=
  let f := Qfloor q in
  match Qcompare (q - inject_Z f) (1 # 2) with
  | Lt => f
  | Gt => f + 1
  | Eq => if Z.even f then f else f + 1
  end.

(** [{q:.kf}] and, with [commas], [{q:,.kf}]. *)
Definition fixed (commas : bool) (k : nat) (v : option Q) : string :=
  match v with
  | None => "nan"
  | Some q =>
      let scale := 10 ^ Z.of_nat k in
      let m := Z.abs (round_half_even (q * inject_Z scale)) in
      let ip := Z.to_N (m / scale) in
      (if Qle_bool 0 q then "" else "-") +:+
      (if commas then grouped ip else pretty ip) +:+
      (match k with
       | O => ""
       | _ => "." +:+ pad_left k (pretty (Z.to_N (m mod scale)))
       end)
  end.

Definition money := fixed true 2.
Definition f1 := fixed false 1.
Definition f0 := fixed false 0.

Definition unlines (ls : list string) : string :=
  foldr (λ l acc, l +:+ nl +:+ acc) "" ls.

End Fmt.

(** ** The analyzer object and its surroundings *)

Inductive level := INFO | WARNING | ERROR.

(** [datetime.now()]. *)
Record datetime := {
  dt_date : Calendar.civil;
  dt_hour : Z;
  dt_minute : Z;
  dt_second : Z }.

(** [strftime('%Y-%m-%d %H:%M:%S')]. *)
Definition strftime (t : datetime) : string :=
  Fmt.pad_left 4 (pretty (Calendar.year (dt_date t))) +:+ "-" +:+
  Fmt.pad_left 2 (pretty (Calendar.month (dt_date t))) +:+ "-" +:+
  Fmt.pad_left 2 (pretty (Calendar.day (dt_date t))) +:+ " " +:+
  Fmt.pad_left 2 (pretty (dt_hour t)) +:+ ":" +:+
  Fmt.pad_left 2 (pretty (dt_minute t)) +:+ ":" +:+
  Fmt.pad_left 2 (pretty (dt_second t)).

(** The six queries the analyzer sends. *)
Inductive query_id :=
  | QMetrics | QDenials | QUnbilled | QUnderpayments | QOldAr | QPayers.

(** What a run reads but does not own: the store, whether it can be reached,
    which queries it fails, and the wall clock. *)
Record env := {
  db : store;
  reachable : bool;
  failing : query_id → bool;
  now : datetime }.

(** What a run changes: [self.connection], the connections the driver holds
    open, the next handle it will hand out, and the log. *)
Record world := {
  connection : option nat;
  open_conns : gset nat;
  next_conn : nat;
  log : list (level * string) }.

Definition M (A : Type) : Type := world → result A * world.

Definition ret {A} (a : A) : M A := λ w, (Ok a, w).
Definition raise {A} (e : error) : M A := λ w, (Raise e, w).
Definition bind {A B} (m : M A) (k : A → M B) : M B :=
  λ w, match m w with
       | (Ok a, w') => k a w'
       | (Raise e, w') => (Raise e, w')
       end.

Notation "x ←ₘ m ; k" := (bind m (λ x, k))
  (at level 100, m at next level, k at level 200, right associativity,
   format "x  ←ₘ  m ;  '/' k").
Notation "m ;ₘ k" := (bind m (λ _, k))
  (at level 100, k at level 200, right associativity,
   format "m  ;ₘ  '/' k").

(** [try: body finally: fin]. *)
Definition try_finally {A} (body : M A) (fin : M unit) : M A :=
  λ w, let '(r, w1) := body w in
       match fin w1 with
       | (Ok _, w2) => (r, w2)
       | (Raise e, w2) => (Raise e, w2)
       end.

Definition logger (l : level) (msg : string) : M unit :=
  λ w, (Ok (), {| connection := connection w; open_conns := open_conns w;
                  next_conn := next_conn w; log := log w ++ [(l, msg)] |}).

Definition connect (e : env) : M unit :=
  λ w,
    if reachable e then
      logger INFO "Database connection established"
        {| connection := Some (next_conn w);
           open_conns := {[ next_conn w ]} ∪ open_conns w;
           next_conn := S (next_conn w);
           log := log w |}
    else
      (logger ERROR "Connection failed" ;ₘ raise ConnectionError) w.

Definition disconnect : M unit :=
  λ w,
    match connection w with
    | Some h =>
        logger INFO "Database connection closed"
          {| connection := connection w;
             open_conns := open_conns w ∖ {[ h ]};
             next_conn := next_conn w;
             log := log w |}
    | None => (Ok (), w)
    end.

(** [execute_query]: the query runs on [self.connection], which has to be
    a connection the driver holds open; an error of the driver or of the
    query is logged and raised again. *)
Definition usable (w : world) : bool :=
  match connection w with
  | Some h => bool_decide (h ∈ open_conns w)
  | None => false
  end.

Definition execute_query {A} (e : env) (q : query_id) (run : store → result A) : M A :=
  λ w,
    let r := if usable w && negb (failing e q) then run (db e) else Raise QueryError in
    match r with
    | Ok a => (Ok a, w)
    | Raise err => (logger ERROR "Query execution failed" ;ₘ raise err) w
    end.

(** The dictionary [calculate_revenue_metrics] returns: [{}], or
    [result.iloc[0].to_dict()] whose keys are the columns of the query. *)
Inductive metrics_dict :=
  | EmptyDict
  | RowDict (r : Kpi.t).

Definition dict_len (m : metrics_dict) : Z :=
  match m with EmptyDict => 0 | RowDict _ => 16 end.

(** [metrics.get(column, dflt)]. *)
Definition dict_get {A} (m : metrics_dict) (column : Kpi.t → A) (dflt : A) : A :=
  match m with EmptyDict => dflt | RowDict r => column r end.

Definition calculate_revenue_metrics (e : env) (start_date end_date : string)
  : M metrics_dict :=
  logger INFO ("Calculating revenue metrics from " +:+ start_date +:+ " to " +:+ end_date) ;ₘ
  result ←ₘ execute_query e QMetrics (λ d,
              match Calendar.parse_date start_date, Calendar.parse_date end_date with
              | Some s, Some f => Kpi.query d s f
              | _, _ => Raise InvalidDate
              end) ;
  match result with
  | [] =>
      logger WARNING "No data found for the specified period" ;ₘ
      ret EmptyDict
  | r :: _ =>
      logger INFO ("Revenue metrics calculated: " +:+ Fmt.int_plain (dict_len (RowDict r)) +:+ " KPIs") ;ₘ
      ret (RowDict r)
  end.

Definition analyze_denial_patterns (e : env) (lookback_months : Z)
  : M (list DenialPattern.t) :=
  logger INFO ("Analyzing denial patterns for last " +:+ Fmt.int_plain lookback_months +:+ " months") ;ₘ
  result ←ₘ execute_query e QDenials (λ d, DenialPattern.query d lookback_months) ;
  logger INFO ("Found " +:+ Fmt.int_plain (Z.of_nat (length result)) +:+ " denial patterns") ;ₘ
  ret result.

(** The dictionary of the three leakage tables. *)
Record leakage := {
  unbilled_encounters : list Unbilled.t;
  underpayments : list Underpayment.t;
  old_ar : list OldAr.t }.

(** [Series.sum()]: missing values are skipped and an empty sum is 0. *)
Definition series_sum (l : list (option Q)) : Q :=
  foldl Sql.nadd 0%Q (omap id l).

Definition total_leakage (l : leakage) : Q :=
  Sql.nadd
    (Sql.nadd (series_sum (Unbilled.expected_charge <$> unbilled_encounters l))
              (series_sum (Underpayment.variance <$> underpayments l)))
    (series_sum (OldAr.outstanding <$> old_ar l)).

Definition identify_revenue_leakage (e : env) : M leakage :=
  logger INFO "Identifying revenue leakage opportunities" ;ₘ
  unbilled ←ₘ execute_query e QUnbilled Unbilled.query ;
  under ←ₘ execute_query e QUnderpayments Underpayment.query ;
  old ←ₘ execute_query e QOldAr OldAr.query ;
  let leak := {| unbilled_encounters := unbilled; underpayments := under; old_ar := old |} in
  logger INFO ("Total revenue leakage identified: $" +:+ Fmt.money (Some (total_leakage leak))) ;ₘ
  ret leak.

Definition payer_performance_analysis (e : env) : M (list Scorecard.t) :=
  logger INFO "Analyzing payer performance" ;ₘ
  result ←ₘ execute_query e QPayers Scorecard.query ;
  logger INFO ("Analyzed " +:+ Fmt.int_plain (Z.of_nat (length result)) +:+ " payers") ;ₘ
  ret result.

(** ** The report *)

Module Report.

Definition rule : string := Fmt.repeat_string 70 "=".

(** The header and the block of key performance indicators. *)
Definition kpi_block (start_date end_date : string) (generated : datetime)
    (metrics : metrics_dict) : list string :=
  [ "";
    "REVENUE CYCLE EXECUTIVE SUMMARY";
    "Period: " +:+ start_date +:+ " to " +:+ end_date;
    "Generated: " +:+ strftime generated;
    "";
    rule;
    "KEY PERFORMANCE INDICATORS";
    rule;
    "";
    "Volume Metrics:";
    "  • Total Claims Submitted: " +:+ Fmt.int_commas (dict_get metrics Kpi.total_claims 0);
    "  • Claims Paid: " +:+ Fmt.int_commas (dict_get metrics Kpi.paid_claims 0);
    "  • Claims Denied: " +:+ Fmt.int_commas (dict_get metrics Kpi.denied_claims 0);
    "";
    "Financial Performance:";
    "  • Total Charges: $" +:+ Fmt.money (dict_get metrics Kpi.total_charges (Some 0%Q));
    "  • Total Collections: $" +:+ Fmt.money (dict_get metrics Kpi.total_payments (Some 0%Q));
    "  • Net Collection Rate: " +:+ Fmt.f1 (dict_get metrics Kpi.net_collection_rate (Some 0%Q)) +:+ "%";
    "  • Gross Collection Rate: " +:+ Fmt.f1 (dict_get metrics Kpi.gross_collection_rate (Some 0%Q)) +:+ "%";
    "";
    "Quality Metrics:";
    "  • Clean Claim Rate: " +:+ Fmt.f1 (dict_get metrics Kpi.clean_claim_rate (Some 0%Q)) +:+ "%";
    "  • Denial Rate: " +:+ Fmt.f1 (dict_get metrics Kpi.denial_rate (Some 0%Q)) +:+ "%";
    "  • Average Days to Payment: " +:+ Fmt.f1 (dict_get metrics Kpi.avg_days_to_payment (Some 0%Q)) +:+ " days";
    "";
    "Accounts Receivable:";
    "  • Total AR: $" +:+ Fmt.money (dict_get metrics Kpi.total_ar (Some 0%Q));
    "  • AR > 90 Days: $" +:+ Fmt.money (dict_get metrics Kpi.ar_over_90 (Some 0%Q)) +:+
      " (" +:+ Fmt.f1 (dict_get metrics Kpi.ar_over_90_pct (Some 0%Q)) +:+ "%)";
    "  • Days in AR: " +:+ Fmt.f1 (dict_get metrics Kpi.days_in_ar (Some 0%Q)) +:+ " days";
    "";
    rule;
    "TOP DENIAL REASONS";
    rule;
    "" ].

(** [for idx, row in df.head(5).iterrows()]: the first five rows with
    their index. *)
Definition head_indexed {A} (rows : list A) : list (Z * A) :=
  zip (Z.of_nat <$> seq 0 (length (take 5 rows))) (take 5 rows).

Definition denial_entry (ir : Z * DenialPattern.t) : list string :=
  let row := ir.2 in
  [ "";
    Fmt.int_plain (ir.1 + 1) +:+ ". " +:+ DenialPattern.denial_category row +:+ " - " +:+
      DenialPattern.denial_reason_description row;
    "   Count: " +:+ Fmt.int_plain (DenialPattern.denial_count row) +:+
      " | Amount: $" +:+ Fmt.money (DenialPattern.total_denied row);
    "   Appeal Success: " +:+ Fmt.f1 (DenialPattern.appeal_success_rate row) +:+
      "% | Preventable: " +:+ Fmt.f1 (DenialPattern.preventable_pct row) +:+ "%" ].

(** The figure after [TOTAL LEAKAGE:]: the three sums, added again. *)
Definition leakage_total_line (leak : leakage) : string :=
  "TOTAL LEAKAGE: $" +:+
  Fmt.money (Some
    (Sql.nadd
       (Sql.nadd (series_sum (Unbilled.expected_charge <$> unbilled_encounters leak))
                 (series_sum (Underpayment.variance <$> underpayments leak)))
       (series_sum (OldAr.outstanding <$> old_ar leak)))).

Definition leakage_block (leak : leakage) : list string :=
  [ "";
    rule;
    "REVENUE LEAKAGE OPPORTUNITIES";
    rule;
    "";
    "Unbilled Encounters: " +:+
      Fmt.int_plain (Z.of_nat (length (unbilled_encounters leak))) +:+ " encounters";
    "  • Potential Revenue: $" +:+
      Fmt.money (Some (series_sum (Unbilled.expected_charge <$> unbilled_encounters leak)));
    "";
    "Underpayments: " +:+ Fmt.int_plain (Z.of_nat (length (underpayments leak))) +:+ " claims";
    "  • Variance Amount: $" +:+
      Fmt.money (Some (series_sum (Underpayment.variance <$> underpayments leak)));
    "";
    "Old AR (>90 days): " +:+ Fmt.int_plain (Z.of_nat (length (old_ar leak))) +:+ " claims";
    "  • Outstanding Amount: $" +:+
      Fmt.money (Some (series_sum (OldAr.outstanding <$> old_ar leak)));
    "";
    leakage_total_line leak;
    "";
    rule;
    "TOP PERFORMING PAYERS";
    rule;
    "" ].

Definition payer_entry (ir : Z * Scorecard.t) : list string :=
  let row := ir.2 in
  [ "";
    Fmt.int_plain (ir.1 + 1) +:+ ". " +:+ Scorecard.payer_name row +:+
      " (" +:+ Scorecard.payer_type row +:+ ")";
    "   Collections: $" +:+ Fmt.money (Scorecard.total_payments row) +:+
      " | Rating: " +:+ Scorecard.performance_rating row;
    "   Denial Rate: " +:+ Fmt.f1 (Scorecard.denial_rate row) +:+
      "% | Days to Payment: " +:+ Fmt.f0 (Scorecard.avg_days_to_payment row) ].

(** The lines of the summary, in the order they are appended. *)
Definition lines (start_date end_date : string) (generated : datetime)
    (metrics : metrics_dict) (denial_rows : list DenialPattern.t)
    (leak : leakage) (payer_rows : list Scorecard.t) : list string :=
  kpi_block start_date end_date generated metrics ++
  (head_indexed denial_rows ≫= denial_entry) ++
  leakage_block leak ++
  (head_indexed payer_rows ≫= payer_entry) ++
  [ ""; rule ].

Definition compose (start_date end_date : string) (generated : datetime)
    (metrics : metrics_dict) (denial_rows : list DenialPattern.t)
    (leak : leakage) (payer_rows : list Scorecard.t) : string :=
  Fmt.unlines (lines start_date end_date generated metrics denial_rows leak payer_rows).

End Report.

(** ** [generate_executive_summary] *)

Definition generate_executive_summary (e : env) (start_date end_date : string)
  : M string :=
  logger INFO "Generating executive summary" ;ₘ
  connect e ;ₘ
  try_finally
    (metrics ←ₘ calculate_revenue_metrics e start_date end_date ;
     denial_rows ←ₘ analyze_denial_patterns e 6 ;
     leak ←ₘ identify_revenue_leakage e ;
     payer_rows ←ₘ payer_performance_analysis e ;
     ret (Report.compose start_date end_date (now e) metrics denial_rows leak payer_rows))
    disconnect.

(** ** What the specification states, as predicates on the results *)

(** A rate that is present is a percentage. *)
Definition percentage (x : option Q) : Prop :=
  match x with
  | Some q => (0 <= q)%Q ∧ (q <= 100)%Q
  | None => True
  end.

Definition positive (x : option Q) : Prop :=
  match x with
  | Some q => (0 < q)%Q
  | None => False
  end.

(** Every rate of the KPI row is a percentage whenever its denominator is
    positive. *)
Definition rates_bounded (r : Kpi.t) : Prop :=
  (0 < Kpi.total_claims r →
     percentage (Kpi.clean_claim_rate r) ∧ percentage (Kpi.denial_rate r)) ∧
  (positive (Kpi.total_allowed r) → percentage (Kpi.net_collection_rate r)) ∧
  (positive (Kpi.total_charges r) → percentage (Kpi.gross_collection_rate r)) ∧
  (positive (Kpi.total_ar r) → percentage (Kpi.ar_over_90_pct r)).

(** The call returns [{}] or a mapping with bounded rates. *)
Definition returns_bounded_rates (out : result metrics_dict) : Prop :=
  match out with
  | Ok EmptyDict => True
  | Ok (RowDict r) => rates_bounded r
  | Raise _ => False
  end.

(** The numerator of a rate lies between 0 and its denominator. *)
Definition covered (num den : option Q) : Prop :=
  ∀ n d, num = Some n → den = Some d → (0 <= n)%Q ∧ (n <= d)%Q.

(** The bound the code gives: the two claim-count rates are percentages;
    a ratio of amounts is one when its numerator is covered by its
    denominator. *)
Definition rates_bounded_when_covered (r : Kpi.t) : Prop :=
  (0 < Kpi.total_claims r →
     percentage (Kpi.clean_claim_rate r) ∧ percentage (Kpi.denial_rate r)) ∧
  (positive (Kpi.total_allowed r) →
     covered (Kpi.total_payments r) (Kpi.total_allowed r) →
     percentage (Kpi.net_collection_rate r)) ∧
  (positive (Kpi.total_charges r) →
     covered (Kpi.total_payments r) (Kpi.total_charges r) →
     percentage (Kpi.gross_collection_rate r)) ∧
  (positive (Kpi.total_ar r) →
     covered (Kpi.ar_over_90 r) (Kpi.total_ar r) →
     percentage (Kpi.ar_over_90_pct r)).

(** A threshold is met when the value is present and on the right side
    of it. *)
Definition at_least (x : option Q) (t : Q) : bool :=
  match x with Some v => Qle_bool t v | None => false end.
Definition at_most (x : option Q) (t : Q) : bool :=
  match x with Some v => Qle_bool v t | None => false end.

(** The first rule that matches wins. *)
Fixpoint first_match {A} (rules : list (bool * A)) (otherwise : A) : A :=
  match rules with
  | [] => otherwise
  | (true, v) :: _ => v
  | (false, _) :: rest => first_match rest otherwise
  end.

(** The rating rules of the specification, in their order. *)
Definition rating_by_rules (reimbursement_rate denial_rate avg_days_to_payment : option Q)
  : string :=
  first_match
    [ (at_least reimbursement_rate 95 && at_most denial_rate 5 &&
         at_most avg_days_to_payment 30, "Excellent");
      (at_least reimbursement_rate 85 && at_most denial_rate 10, "Good");
      (at_least reimbursement_rate 75 && at_most denial_rate 15, "Fair") ]
    "Poor".

(** A row of the payer scorecard as the specification wants it. *)
Definition scorecard_row_ok (r : Scorecard.t) : Prop :=
  100 ≤ Scorecard.total_claims r ∧
  Scorecard.performance_rating r =
    rating_by_rules (Scorecard.reimbursement_rate r) (Scorecard.denial_rate r)
                    (Scorecard.avg_days_to_payment r).

(** [x] is no smaller than [y] in the order of ORDER BY ... DESC, where a
    NULL sorts before every value. *)
Definition no_smaller (x y : option Q) : Prop :=
  match x, y with
  | None, _ => True
  | Some _, None => False
  | Some a, Some b => (b <= a)%Q
  end.

(** A column that never increases from one row to a later one. *)
Definition non_increasing (column : list (option Q)) : Prop :=
  ∀ (i j : nat) (x y : option Q),
    (i < j)%nat → column !! i = Some x → column !! j = Some y → no_smaller x y.

(** The identifiers are keys of their tables. *)
Definition keys_unique (d : store) : bool :=
  bool_decide (NoDup (Denial.denial_id <$> denials d)) &&
  bool_decide (NoDup (Claim.claim_id <$> claims d)) &&
  bool_decide (NoDup (Payer.payer_id <$> payers d)).

(** A completion flag that is set to false. *)
Definition incomplete (flag : option bool) : bool :=
  match flag with Some false => true | _ => false end.

(** The bottleneck by priority: missing documentation, then incomplete
    coding, then charges not entered, then claim not generated. *)
Definition bottleneck_by_priority (e : Encounter.t) : option string :=
  first_match
    [ (incomplete (Encounter.documentation_complete e), Some "Missing Documentation");
      (incomplete (Encounter.coding_complete e), Some "Coding Incomplete");
      (incomplete (Encounter.charge_entered e), Some "Charges Not Entered");
      (incomplete (Encounter.claim_generated e), Some "Claim Not Generated") ]
    None.

(** An unbilled row comes from an encounter of the store and carries the
    label that the priority gives this encounter. *)
Definition labelled_by_priority (d : store) (r : Unbilled.t) : Prop :=
  ∃ e, e ∈ encounters d ∧
       r = Unbilled.row_of (current_date d) e ∧
       Unbilled.bottleneck r = bottleneck_by_priority e ∧
       (incomplete (Encounter.documentation_complete e) = true →
        incomplete (Encounter.coding_complete e) = true →
        Unbilled.bottleneck r = Some "Missing Documentation").

(** The total of a category: the sum of the values present. *)
Definition category_total (column : list (option Q)) : Q :=
  foldr Qplus 0%Q (omap id column).

(** The same world with more lines in the log. *)
Definition logged (w : world) (extra : list (level * string)) : world :=
  {| connection := connection w; open_conns := open_conns w;
     next_conn := next_conn w; log := log w ++ extra |}.

(** ** A run as a function of what it reads *)

(** What the gateway answers on a usable connection. *)
Definition answer {A} (e : env) (q : query_id) (run : store → result A) : result A :=
  if failing e q then Raise QueryError else run (db e).

Definition metrics_of (e : env) (start_date end_date : string) : result metrics_dict :=
  rbind (answer e QMetrics (λ d,
           match Calendar.parse_date start_date, Calendar.parse_date end_date with
           | Some s, Some f => Kpi.query d s f
           | _, _ => Raise InvalidDate
           end))
    (λ rows, Ok (match rows with [] => EmptyDict | r :: _ => RowDict r end)).

Definition leakage_of (e : env) : result leakage :=
  rbind (answer e QUnbilled Unbilled.query) (λ unbilled,
  rbind (answer e QUnderpayments Underpayment.query) (λ under,
  rbind (answer e QOldAr OldAr.query) (λ old,
  Ok {| unbilled_encounters := unbilled; underpayments := under; old_ar := old |}))).

(** The four results, composed with the window and the clock. *)
Definition analyses_of (e : env) (start_date end_date : string) : result string :=
  rbind (metrics_of e start_date end_date) (λ metrics,
  rbind (answer e QDenials (λ d, DenialPattern.query d 6)) (λ denial_rows,
  rbind (leakage_of e) (λ leak,
  rbind (answer e QPayers Scorecard.query) (λ payer_rows,
  Ok (Report.compose start_date end_date (now e) metrics denial_rows leak payer_rows))))).

Definition summary_of (e : env) (start_date end_date : string) : result string :=
  if reachable e then analyses_of e start_date end_date else Raise ConnectionError.

(** On a usable connection the method [m] has the result [r] and only
    adds to the log. *)
Definition runs_as {A} (m : M A) (r : result A) : Prop :=
  ∀ w, usable w = true → ∃ extra, m w = (r, logged w extra).

(** The connection that [connect] opened in [w] is released in [final]. *)
Definition released (w final : world) : Prop :=
  connection final = Some (next_conn w) ∧
  (next_conn w ∉ open_conns final) ∧
  last (log final) = Some (INFO, "Database connection closed").

(** What an underpayment row was computed from: a paid claim of the
    store, its amounts, and a variance that passed the filter. *)
Definition from_claim (d : store) (r : Underpayment.t) : Prop :=
  ∃ c, c ∈ claims d ∧ Claim.status c = "PAID" ∧
       Underpayment.claim_id r = Claim.claim_id c ∧
       Underpayment.paid_amount r = Claim.paid_amount c ∧
       Underpayment.expected_payment r = Underpayment.expected_of c ∧
       Underpayment.variance r = Underpayment.variance_of c ∧
       Sql.holds (Sql.gt (Sql.abs (Underpayment.variance r)) (Some 10%Q)) = true.

(** ** The entry point *)

(** [RevenueCycleAnalyzer(db_config)]: a new object has no connection. *)
Definition init (w : world) : world :=
  {| connection := None; open_conns := open_conns w;
     next_conn := next_conn w; log := log w |}.

(** [date.strftime('%Y-%m-%d')]. *)
Definition strftime_date (c : Calendar.civil) : string :=
  Fmt.pad_left 4 (pretty (Calendar.year c)) +:+ "-" +:+
  Fmt.pad_left 2 (pretty (Calendar.month c)) +:+ "-" +:+
  Fmt.pad_left 2 (pretty (Calendar.day c)).

(** What [main] touches besides the analyzer: what was printed, the files,
    and whether [outputs/executive_summary.txt] can be opened for writing. *)
Record host := {
  process : world;
  stdout : list string;
  files : gmap string string;
  outputs_writable : bool }.

Inductive outcome :=
  | Done
  | Failed (err : error)     (* the summary raised *)
  | CannotWrite.             (* [open(..., 'w')] raised *)

Definition summary_path : string := "outputs/executive_summary.txt".

(** The window of [main]: the ninety days that end today. *)
Definition main_end_date (e : env) : Calendar.civil := dt_date (now e).
Definition main_start_date (e : env) : Calendar.civil :=
  Calendar.civil_from_days (Calendar.days_from_civil (dt_date (now e)) - 90).

Definition main (e : env) (h : host) : outcome * host :=
  let analyzer := init (process h) in
  match generate_executive_summary e (strftime_date (main_start_date e))
          (strftime_date (main_end_date e)) analyzer with
  | (Raise err, w) =>
      (Failed err,
       {| process := w; stdout := stdout h; files := files h;
          outputs_writable := outputs_writable h |})
  | (Ok summary, w) =>
      if outputs_writable h then
        (Done,
         {| process := logged w [ (INFO, "Analysis complete!") ];
            stdout := stdout h ++ [summary];
            files := <[ summary_path := summary ]> (files h);
            outputs_writable := outputs_writable h |})
      else
        (CannotWrite,
         {| process := w; stdout := stdout h ++ [summary]; files := files h;
            outputs_writable := outputs_writable h |})
  end.

(** ** A check of printed numbers

    [text_ok width n]: the number [n], printed in [width] columns with zero
    padding, has that width and reads back as [n]. *)

Definition all_between (lo hi : Z) (P : Z → bool) : bool :=
  forallb P (seqZ lo (hi - lo + 1)).

Definition text_ok (width : nat) (n : Z) : bool :=
  let s := Fmt.pad_left width (pretty n) in
  Nat.eqb (String.length s) width &&
  match Calendar.digits_value 0 s with
  | Some k => k =? n
  | None => false
  end.

(** ** Sample stores *)

Module Sample.

Definition claim (id payer : Z) (st : string) (charge allowed paid : option Q)
    (submitted : Z) (paid_on : option Z) : Claim.t :=
  {| Claim.claim_id := id; Claim.patient_id := 1; Claim.payer_id := payer;
     Claim.status := st;
     Claim.charge_amount := charge; Claim.allowed_amount := allowed;
     Claim.paid_amount := paid;
     Claim.adjustment_amount := None; Claim.patient_responsibility := None;
     Claim.submission_date := submitted; Claim.payment_date := paid_on |}.

Definition store_of (cs : list Claim.t) : store :=
  {| claims := cs; denials := []; payers := []; encounters := [];
     current_date := 19820 |}.

(** 2024-04-07 09:05, at the given second. *)
Definition clock (sec : Z) : datetime :=
  {| dt_date := {| Calendar.year := 2024; Calendar.month := 4; Calendar.day := 7 |};
     dt_hour := 9; dt_minute := 5; dt_second := sec |}.

Definition env_of (d : store) (sec : Z) : env :=
  {| db := d; reachable := true; failing := λ _, false; now := clock sec |}.

(** Before [connect], and after it. *)
Definition fresh : world :=
  {| connection := None; open_conns := ∅; next_conn := 0%nat; log := [] |}.
Definition connected : world :=
  {| connection := Some 0%nat; open_conns := {[ 0%nat ]}; next_conn := 1%nat; log := [] |}.

(** No claim at all. *)
Definition empty : store := store_of [].

(** One claim of January 2024, paid above its allowed amount. *)
Definition overpaid : store :=
  store_of [ claim 1 1 "PAID" (Some 200%Q) (Some 100%Q) (Some 150%Q) 19730 (Some 19740) ].

(** One claim of January 2024, submitted and not yet paid: nothing allowed,
    nothing paid. *)
Definition unpaid : store :=
  store_of [ claim 1 1 "SUBMITTED" (Some 100%Q) (Some 0%Q) (Some 0%Q) 19730 None ].

(** Two claims of January 2024, one paid below its allowed amount and
    one denied. *)
Definition regular : store :=
  store_of [ claim 1 1 "PAID" (Some 200%Q) (Some 160%Q) (Some 120%Q) 19730 (Some 19740);
             claim 2 1 "DENIED" (Some 300%Q) (Some 240%Q) (Some 0%Q) 19735 None ].

(** One payer with a hundred claims of January 2024, each paid 96 of an
    allowed 100 after twenty days. *)
Definition busy_payer : store :=
  {| claims :=
       (λ i, claim (Z.of_nat i) 7 "PAID" (Some 120%Q) (Some 100%Q) (Some 96%Q)
                   19730 (Some 19750)) <$> seq 0 100;
     denials := [];
     payers := [ {| Payer.payer_id := 7; Payer.payer_name := "Acme";
                    Payer.payer_type := "Commercial" |} ];
     encounters := [];
     current_date := 19820 |}.

Definition denial (id for_claim : Z) (code : string) (amount : Q) : Denial.t :=
  {| Denial.denial_id := id; Denial.claim_id := for_claim;
     Denial.denial_category := "Coding"; Denial.denial_reason_code := code;
     Denial.denial_reason_description := "Reason " +:+ code;
     Denial.denied_amount := Some amount;
     Denial.work_status := Some "OPEN"; Denial.resolution_type := None;
     Denial.recovered_amount := None; Denial.preventable := Some true;
     Denial.denial_date := 19800 |}.

(** Ten denied claims of one payer: five denials of 100 under code CO-16,
    five of 300 under CO-97, and a single one under CO-50. *)
Definition denied : store :=
  {| claims :=
       (λ i, claim (Z.of_nat i) 7 "DENIED" (Some 400%Q) None None 19790 None)
         <$> seq 0 11;
     denials :=
       ((λ i, denial (Z.of_nat i) (Z.of_nat i) "CO-16" 100) <$> seq 0 5) ++
       ((λ i, denial (Z.of_nat i) (Z.of_nat i) "CO-97" 300) <$> seq 5 5) ++
       [ denial 10 10 "CO-50" 5000 ];
     payers := [ {| Payer.payer_id := 7; Payer.payer_name := "Acme";
                    Payer.payer_type := "Commercial" |} ];
     encounters := [];
     current_date := 19820 |}.

Definition encounter (id : Z) (charge : Q) (doc coding entered generated : option bool)
  : Encounter.t :=
  {| Encounter.encounter_id := id; Encounter.patient_id := 1;
     Encounter.provider_id := 1; Encounter.encounter_date := 19790;
     Encounter.expected_charge := Some charge;
     Encounter.documentation_complete := doc;
     Encounter.coding_complete := coding;
     Encounter.charge_entered := entered;
     Encounter.claim_generated := generated |}.

(** Encounters of thirty days ago in every stage of billing, and one that
    already has its claim. *)
Definition unbilled : store :=
  {| claims := []; denials := []; payers := [];
     encounters :=
       [ encounter 1 500 (Some false) (Some false) (Some false) (Some false);
         encounter 2 400 (Some true) (Some false) (Some false) (Some false);
         encounter 3 300 (Some true) (Some true) (Some false) (Some false);
         encounter 4 200 (Some true) (Some true) (Some true) (Some false);
         encounter 5 100 None None None (Some false);
         encounter 6 900 (Some true) (Some true) (Some true) (Some true) ];
     current_date := 19820 |}.

(** The three leakage tables of the worked example: 10,000 unbilled,
    a variance of 1,500 and 25,000 of aged receivables. *)
Definition worked_leakage : leakage :=
  {| unbilled_encounters :=
       [ Unbilled.row_of 19820
           (encounter 1 10000 (Some true) (Some true) (Some true) (Some false)) ];
     underpayments :=
       [ {| Underpayment.claim_id := 1; Underpayment.patient_id := 1;
            Underpayment.payer_name := "Acme"; Underpayment.submission_date := 19700;
            Underpayment.allowed_amount := Some 6000%Q;
            Underpayment.patient_responsibility := None;
            Underpayment.paid_amount := Some 4500%Q;
            Underpayment.expected_payment := Some 6000%Q;
            Underpayment.variance := Some 1500%Q;
            Underpayment.variance_pct := Some 25%Q |} ];
     old_ar :=
       [ OldAr.row_of 19820
           (claim 9 7 "SUBMITTED" (Some 25000%Q) None None 19600 None) ] |}.

(** A hundred claims of January 2024: eighty paid 100 of an allowed 100
    and a charge of 125, ten denied and ten pending, each with nothing paid
    yet on an allowed 100 and a charge of 125. *)
Definition hundred : store :=
  store_of
    (((λ i, claim (Z.of_nat i) 7 "PAID" (Some 125%Q) (Some 100%Q) (Some 100%Q)
                  19730 (Some 19750)) <$> seq 0 80) ++
     ((λ i, claim (Z.of_nat i) 7 "DENIED" (Some 125%Q) (Some 100%Q) None
                  19730 None) <$> seq 80 10) ++
     ((λ i, claim (Z.of_nat i) 7 "SUBMITTED" (Some 125%Q) (Some 100%Q) None
                  19730 None) <$> seq 90 10)).

(** A store that fails the denial query. *)
Definition failing_denials (d : store) : env :=
  {| db := d; reachable := true;
     failing := λ q, match q with QDenials => true | _ => false end;
     now := clock 3 |}.

(** A payer and five claims: two open for more than ninety days, one
    open for less, one paid 80 of an allowed 100 a month ago and one paid
    150 of an allowed 100. *)
Definition aged : store :=
  {| claims :=
       [ claim 1 7 "SUBMITTED" (Some 300%Q) None None 19600 None;
         claim 2 7 "DENIED" (Some 900%Q) None (Some 100%Q) 19650 None;
         claim 3 7 "SUBMITTED" (Some 500%Q) None None 19800 None;
         claim 4 7 "PAID" (Some 120%Q) (Some 100%Q) (Some 80%Q) 19700 (Some 19790);
         claim 5 7 "PAID" (Some 120%Q) (Some 100%Q) (Some 150%Q) 19700 (Some 19795) ];
     denials := [];
     payers := [ {| Payer.payer_id := 7; Payer.payer_name := "Acme";
                    Payer.payer_type := "Commercial" |} ];
     encounters := [];
     current_date := 19820 |}.

(** A store that cannot be reached. *)
Definition unreachable (d : store) : env :=
  {| db := d; reachable := false; failing := λ _, false; now := clock 3 |}.

(** A host that printed nothing yet and holds an older summary. *)
Definition machine (writable : bool) : host :=
  {| process := fresh; stdout := [];
     files := {[ summary_path := "old summary" ]};
     outputs_writable := writable |}.

End Sample.

(** * Properties *)

(** ** Dates and formats on examples *)

Example parse_date_2024_03_31 : Calendar.parse_date "2024-03-31" = Some 19813.
Proof. reflexivity. Qed.

Example parse_date_rejects_february_30 : Calendar.parse_date "2024-02-30" = None.
Proof. reflexivity. Qed.

Example civil_from_days_19813 :
  Calendar.civil_from_days 19813 =
  {| Calendar.year := 2024; Calendar.month := 3; Calendar.day := 31 |}.
Proof. reflexivity. Qed.

Example minus_months_clamps_the_day :
  Calendar.civil_from_days (Calendar.minus_months 19813 1) =
  {| Calendar.year := 2024; Calendar.month := 2; Calendar.day := 29 |}.
Proof. reflexivity. Qed.

Example money_groups_thousands : Fmt.money (Some (1234567 # 100)) = "12,345.67".
Proof. reflexivity. Qed.

Example money_of_null : Fmt.money None = "nan".
Proof. reflexivity. Qed.

Example f1_ties_to_even :
  Fmt.f1 (Some (8025 # 100)) = "80.2" ∧ Fmt.f1 (Some (8035 # 100)) = "80.4".
Proof. split; reflexivity. Qed.

Example strftime_pads : strftime (Sample.clock 3) = "2024-04-07 09:05:03".
Proof. reflexivity. Qed.

Example round_half_away_from_zero :
  Sql.round (12345 # 1000) 2 = (247 # 20)%Q ∧ Sql.round (- (12345 # 1000)) 2 = (- (247 # 20))%Q.
Proof. split; reflexivity. Qed.

(** ** Results *)

Lemma rmap_Forall2 {A B} (f : A → result B) (l : list A) (out : list B) :
  rmap f l = Ok out → Forall2 (λ x y, f x = Ok y) l out.
Proof.
  revert out. induction l as [|x l IH]; intros out; simpl.
  - intros [= <-]. constructor.
  - destruct (f x) as [y|] eqn:Hy; simpl; [|discriminate].
    destruct (rmap f l) as [ys|] eqn:Hys; simpl; [|discriminate].
    intros [= <-]. constructor; auto.
Qed.

Lemma rbind_Ok {A} (r : result A) : rbind r Ok = r.
Proof. by destruct r. Qed.

Lemma rmap_total {A B} (f : A → result B) (l : list A) :
  (∀ x, ∃ y, f x = Ok y) → ∃ out, rmap f l = Ok out.
Proof.
  intros Hf. induction l as [|x l [ys IH]]; simpl; [by eexists|].
  destruct (Hf x) as [y ->]. rewrite IH. simpl. by eexists.
Qed.

(** ** Rounding and the rate pattern *)

Section rounding.
Local Open Scope Q_scope.

Lemma Qfloor_plus_half (z : Z) : Qfloor (inject_Z z + (1 # 2)) = z.
Proof.
  apply Z.le_antisymm.
  - apply Z.lt_succ_r. rewrite Zlt_Qlt.
    eapply Qle_lt_trans; [apply Qfloor_le|].
    unfold Z.succ. rewrite inject_Z_plus. change (inject_Z 1) with 1. lra.
  - rewrite <- (Qfloor_Z z) at 1. apply Qfloor_resp_le. lra.
Qed.

Lemma round_half_away_bounds (q : Q) (hi : Z) :
  0 <= q → q <= inject_Z hi →
  (0 ≤ Sql.round_half_away q ≤ hi)%Z.
Proof.
  intros H0 Hhi. unfold Sql.round_half_away.
  apply Qle_bool_iff in H0 as Hb. rewrite Hb. split.
  - rewrite <- (Qfloor_plus_half 0). apply Qfloor_resp_le.
    change (inject_Z 0) with 0. lra.
  - rewrite <- (Qfloor_plus_half hi). apply Qfloor_resp_le. lra.
Qed.

Lemma round2_bounds (q : Q) :
  0 <= q → q <= 100 → 0 <= Sql.round q 2 ∧ Sql.round q 2 <= 100.
Proof.
  intros H0 H100. unfold Sql.round.
  change (10 ^ Z.of_nat 2)%Z with 100%Z.
  change (Z.to_pos 100) with 100%positive.
  destruct (round_half_away_bounds (q * inject_Z 100) 10000) as [Hl Hu].
  { change (inject_Z 100) with 100. lra. }
  { change (inject_Z 100) with 100. change (inject_Z 10000) with 10000. lra. }
  rewrite Qred_correct. unfold Qle; simpl. lia.
Qed.

(** A guarded rate never raises. *)
Lemma pct_total (a b : option Q) : ∃ r, Sql.pct a b = Ok r.
Proof.
  unfold Sql.pct, Sql.div, Sql.nullif.
  destruct a as [x|], b as [y|]; simpl; try by eexists.
  destruct (Qeq_bool y 0) eqn:Hy; simpl; [by eexists|].
  rewrite Hy. simpl. by eexists.
Qed.

(** A NULL or zero denominator gives a NULL rate. *)
Lemma pct_null_denominator (a : option Q) : Sql.pct a None = Ok None.
Proof. by destruct a. Qed.

Lemma pct_zero_denominator (a : option Q) (y : Q) :
  y == 0 → Sql.pct a (Some y) = Ok None.
Proof.
  intros Hy. apply Qeq_bool_iff in Hy.
  unfold Sql.pct, Sql.div, Sql.nullif. rewrite Hy. by destruct a.
Qed.

Lemma pct_value (x y : Q) :
  ¬ y == 0 →
  Sql.pct (Some x) (Some y) =
    Ok (Some (Sql.round (Sql.nmul (Qred (x / y)) 100) 2)).
Proof.
  intros Hy. unfold Sql.pct, Sql.div, Sql.nullif.
  destruct (Qeq_bool y 0) eqn:E; [by apply Qeq_bool_iff in E|].
  simpl. by rewrite E.
Qed.

(** With a positive denominator and a numerator between 0 and it, the
    rate is a percentage. *)
Lemma pct_in_range (x y : Q) :
  0 < y → 0 <= x → x <= y →
  ∃ r, Sql.pct (Some x) (Some y) = Ok (Some r) ∧ 0 <= r ∧ r <= 100.
Proof.
  intros Hy H0 Hxy. eexists. split.
  { apply pct_value. lra. }
  apply round2_bounds; unfold Sql.nmul; rewrite Qred_correct, Qred_correct.
  - apply Qmult_le_0_compat; [|lra].
    apply Qle_shift_div_l; lra.
  - assert (x / y <= 1) by (apply Qle_shift_div_r; lra).
    lra.
Qed.
End rounding.

(** ** Counting *)

Lemma count_distinct_nonneg {A} `{EqDecision A} (l : list (option A)) :
  0 ≤ Sql.count_distinct l.
Proof. unfold Sql.count_distinct. lia. Qed.

Lemma count_distinct_le {A} `{EqDecision A} (l1 l2 : list (option A)) :
  (∀ x, x ∈ omap id l1 → x ∈ omap id l2) →
  Sql.count_distinct l1 ≤ Sql.count_distinct l2.
Proof.
  intros Hsub. unfold Sql.count_distinct. apply Nat2Z.inj_le.
  apply submseteq_length, NoDup_submseteq; [apply NoDup_remove_dups|].
  intros x. rewrite !elem_of_remove_dups. auto.
Qed.

Lemma id_when_status_le (v : string) (cs : list Claim.t) :
  Sql.count_distinct (Kpi.id_when_status v <$> cs) ≤
  Sql.count_distinct ((λ c, Some (Claim.claim_id c)) <$> cs).
Proof.
  apply count_distinct_le. intros x.
  rewrite !list_elem_of_omap. intros (o & Ho & Hx). simpl in Hx. subst o.
  apply list_elem_of_fmap in Ho as (c & Hc & Hin).
  exists (Some x). split; [|done].
  apply list_elem_of_fmap. exists c. split; [|done].
  unfold Kpi.id_when_status in Hc. simpl in Hc.
  destruct (String.eqb (Claim.status c) v); simpl in Hc; congruence.
Qed.

(** ** The KPI query *)

(** The query yields exactly one row, and its rates are the guarded
    ratios of that row's own columns. *)
Lemma kpi_query_row (db : store) (s f : Z) (rows : list Kpi.t) :
  Kpi.query db s f = Ok rows →
  ∃ r, rows = [r] ∧
    0 ≤ Kpi.paid_claims r ≤ Kpi.total_claims r ∧
    0 ≤ Kpi.denied_claims r ≤ Kpi.total_claims r ∧
    Sql.pct (Some (Sql.of_int (Kpi.paid_claims r)))
            (Some (Sql.of_int (Kpi.total_claims r))) = Ok (Kpi.clean_claim_rate r) ∧
    Sql.pct (Some (Sql.of_int (Kpi.denied_claims r)))
            (Some (Sql.of_int (Kpi.total_claims r))) = Ok (Kpi.denial_rate r) ∧
    Sql.pct (Kpi.total_payments r) (Kpi.total_allowed r) = Ok (Kpi.net_collection_rate r) ∧
    Sql.pct (Kpi.total_payments r) (Kpi.total_charges r) = Ok (Kpi.gross_collection_rate r) ∧
    Sql.pct (Kpi.ar_over_90 r) (Kpi.total_ar r) = Ok (Kpi.ar_over_90_pct r).
Proof.
  unfold Kpi.query. intros H.
  repeat match type of H with
         | rbind ?x _ = Ok _ =>
             let E := fresh "E" in
             destruct x eqn:E; simpl in H; [|discriminate]
         end.
  injection H as <-. eexists. split; [reflexivity|]. simpl.
  repeat split; auto using count_distinct_nonneg, id_when_status_le.
Qed.

(** The query raises only through the unguarded quotient of [days_in_ar]. *)
Lemma kpi_query_raises (db : store) (s f : Z) (err : error) :
  Kpi.query db s f = Raise err ↔
  Kpi.days_in_ar_expr
    (Sql.sum (Kpi.outstanding <$> Kpi.open_claims db))
    (Sql.sum (Claim.paid_amount <$> Kpi.window db s f)) s f = Raise err.
Proof.
  unfold Kpi.query.
  repeat match goal with
         | |- context [rbind (Sql.pct ?a ?b) _] =>
             let E := fresh "E" in
             destruct (pct_total a b) as [? E]; rewrite E; simpl
         end.
  destruct (Kpi.days_in_ar_expr _ _ s f); simpl; split; congruence.
Qed.

Lemma percentage_of_pct (x y : Q) (r : option Q) :
  (0 < y)%Q → (0 <= x)%Q → (x <= y)%Q →
  Sql.pct (Some x) (Some y) = Ok r → percentage r.
Proof.
  intros Hy H0 Hxy Hr.
  destruct (pct_in_range x y Hy H0 Hxy) as (q & Hq & Hb).
  rewrite Hq in Hr. injection Hr as <-. exact Hb.
Qed.

Lemma percentage_of_pct_covered (num den r : option Q) :
  positive den → covered num den → Sql.pct num den = Ok r → percentage r.
Proof.
  destruct den as [d|]; [|done]. simpl. intros Hd Hc Hr.
  destruct num as [n|].
  - destruct (Hc n d eq_refl eq_refl). by eapply percentage_of_pct.
  - simpl in Hr. unfold Sql.pct, Sql.div in Hr. simpl in Hr.
    destruct (Sql.nullif (Some d) 0); simpl in Hr; by injection Hr as <-.
Qed.

Lemma kpi_row_bounded (db : store) (s f : Z) (r : Kpi.t) :
  Kpi.query db s f = Ok [r] → rates_bounded_when_covered r.
Proof.
  intros H. apply kpi_query_row in H as (r' & [= <-] & Hp & Hd & Hc & Hdn & Hn & Hg & Ha).
  repeat split.
  - eapply percentage_of_pct; [| | |exact Hc]; unfold Sql.of_int;
      rewrite <- ?Zlt_Qlt, <- ?Zle_Qle; change 0%Q with (inject_Z 0);
      rewrite <- ?Zlt_Qlt, <- ?Zle_Qle; lia.
  - eapply percentage_of_pct; [| | |exact Hdn]; unfold Sql.of_int;
      change 0%Q with (inject_Z 0);
      rewrite <- ?Zlt_Qlt, <- ?Zle_Qle; lia.
  - intros. by eapply percentage_of_pct_covered.
  - intros. by eapply percentage_of_pct_covered.
  - intros. by eapply percentage_of_pct_covered.
Qed.

(** ** The methods *)

Lemma execute_query_returns {A} (e : env) (q : query_id) (run : store → result A)
    (w : world) (a : A) :
  usable w = true → failing e q = false → run (db e) = Ok a →
  execute_query e q run w = (Ok a, w).
Proof. intros Hu Hf Hr. unfold execute_query. by rewrite Hu, Hf, Hr. Qed.

Lemma execute_query_inv {A} (e : env) (q : query_id) (run : store → result A)
    (w w' : world) (a : A) :
  execute_query e q run w = (Ok a, w') → run (db e) = Ok a ∧ w' = w.
Proof.
  unfold execute_query.
  destruct (usable w && negb (failing e q)); [|discriminate].
  destruct (run (db e)); [|discriminate]. by intros [= -> ->].
Qed.

(** Unfolds the sequencing of a method. *)
Ltac run_method := unfold bind, ret, raise, logger in *; simpl in *.

Lemma calculate_revenue_metrics_inv (e : env) (s f : string) (w w' : world)
    (m : metrics_dict) :
  calculate_revenue_metrics e s f w = (Ok m, w') →
  ∃ ds df r, Calendar.parse_date s = Some ds ∧ Calendar.parse_date f = Some df ∧
             Kpi.query (db e) ds df = Ok [r] ∧ m = RowDict r.
Proof.
  unfold calculate_revenue_metrics. run_method.
  destruct (execute_query _ _ _ _) as [[rows|] w1] eqn:E; [|discriminate].
  apply execute_query_inv in E as [E _].
  destruct (Calendar.parse_date s) as [ds|]; [|discriminate].
  destruct (Calendar.parse_date f) as [df|]; [|discriminate].
  destruct (kpi_query_row _ _ _ _ E) as (r & -> & _).
  intros [= <- _]. by exists ds, df, r.
Qed.

(** The mapping returned is never the empty one: an aggregate query
    without GROUP BY has one row even when no claim is in the window. *)
Lemma calculate_revenue_metrics_never_empty (e : env) (s f : string) (w w' : world)
    (m : metrics_dict) :
  calculate_revenue_metrics e s f w = (Ok m, w') → m ≠ EmptyDict.
Proof.
  intros H. apply calculate_revenue_metrics_inv in H as (? & ? & r & _ & _ & _ & ->).
  discriminate.
Qed.

Lemma calculate_revenue_metrics_returns (e : env) (s f : string) (ds df : Z)
    (w : world) (r : Kpi.t) :
  Calendar.parse_date s = Some ds → Calendar.parse_date f = Some df →
  usable w = true → failing e QMetrics = false →
  Kpi.query (db e) ds df = Ok [r] →
  ∃ w', calculate_revenue_metrics e s f w = (Ok (RowDict r), w').
Proof.
  intros Hs Hf Hu Hq Hr. unfold calculate_revenue_metrics. run_method.
  rewrite (execute_query_returns _ _ _ _ [r]);
    [by eexists | exact Hu | done | by rewrite Hs, Hf].
Qed.



(** The rates of that window: one of two claims paid, one denied, 120
    collected of 400 allowed and of 500 charged. *)
Example regular_rates :
  match (calculate_revenue_metrics (Sample.env_of Sample.regular 3)
           "2024-01-01" "2024-03-31" Sample.connected).1 with
  | Ok (RowDict r) =>
      [ Kpi.clean_claim_rate r; Kpi.denial_rate r; Kpi.net_collection_rate r;
        Kpi.gross_collection_rate r; Kpi.ar_over_90_pct r ]
  | _ => []
  end = [ Some 50%Q; Some 50%Q; Some 30%Q; Some 24%Q; Some 0%Q ].
Proof. vm_compute. reflexivity. Qed.

(** The end-to-end scenario: of 100 claims in a 90-day window, 80 paid and
    10 denied give a clean claim rate of 80 and a denial rate of 10. *)
Example hundred_claims_rates :
  match (calculate_revenue_metrics (Sample.env_of Sample.hundred 3)
           "2024-01-01" "2024-03-31" Sample.connected).1 with
  | Ok (RowDict r) =>
      (Kpi.total_claims r, Kpi.clean_claim_rate r, Kpi.denial_rate r,
       Kpi.net_collection_rate r, Kpi.gross_collection_rate r)
  | _ => (0, None, None, None, None)
  end = (100, Some 80%Q, Some 10%Q, Some 80%Q, Some 64%Q).
Proof. vm_compute. reflexivity. Qed.


(** C3 (evaluation at the failing input).  Over a store without claims the
    call returns the mapping of a row of zero counts and NULL sums and
    rates, not the empty mapping, and logs no warning. *)
Theorem no_claims_gives_null_kpis :
  calculate_revenue_metrics (Sample.env_of Sample.empty 3)
    "2024-01-01" "2024-03-31" Sample.connected =
  (Ok (RowDict
         {| Kpi.total_claims := 0; Kpi.paid_claims := 0; Kpi.denied_claims := 0;
            Kpi.total_charges := None; Kpi.total_allowed := None;
            Kpi.total_payments := None; Kpi.total_adjustments := None;
            Kpi.avg_days_to_payment := None;
            Kpi.total_ar := None; Kpi.ar_over_90 := None;
            Kpi.clean_claim_rate := None; Kpi.denial_rate := None;
            Kpi.net_collection_rate := None; Kpi.gross_collection_rate := None;
            Kpi.ar_over_90_pct := None; Kpi.days_in_ar := None |}),
   {| connection := Some 0%nat; open_conns := {[ 0%nat ]}; next_conn := 1%nat;
      log := [ (INFO, "Calculating revenue metrics from 2024-01-01 to 2024-03-31");
               (INFO, "Revenue metrics calculated: 16 KPIs") ] |}).
Proof. reflexivity. Qed.

(** C8 (evaluation at the failing input).  Over a store whose one claim in
    the window has nothing allowed and nothing paid, the call raises a
    division by zero: the divisor of [days_in_ar] is not guarded. *)
Theorem zero_payments_raise_division_by_zero :
  (calculate_revenue_metrics (Sample.env_of Sample.unpaid 3)
     "2024-01-01" "2024-03-31" Sample.connected).1 = Raise DivisionByZero.
Proof. reflexivity. Qed.

(** ** Sorting keeps the rows *)

Lemma order_by_desc_Forall {A} (key : A → option Q) (P : A → Prop) (rows : list A) :
  Forall P rows → Forall P (Sql.order_by_desc key rows).
Proof.
  intros H. unfold Sql.order_by_desc. by rewrite merge_sort_Permutation.
Qed.

Lemma order_by_desc_elem_of {A} (key : A → option Q) (rows : list A) (x : A) :
  x ∈ Sql.order_by_desc key rows ↔ x ∈ rows.
Proof. unfold Sql.order_by_desc. by rewrite merge_sort_Permutation. Qed.

(** ** The payer scorecard *)

(** The CASE of the query is the first-match reading of the rules. *)
Lemma rating_first_match (reimbursement denial avg_days : option Q) :
  Scorecard.rating reimbursement denial avg_days =
  rating_by_rules reimbursement denial avg_days.
Proof.
  unfold Scorecard.rating, rating_by_rules, at_least, at_most.
  destruct reimbursement as [r|], denial as [d|], avg_days as [a|]; simpl;
    repeat match goal with
           | |- context [Qle_bool ?x ?y] => destruct (Qle_bool x y); simpl
           end; reflexivity.
Qed.

Example rating_excellent :
  Scorecard.rating (Some 96%Q) (Some 4%Q) (Some 20%Q) = "Excellent".
Proof. reflexivity. Qed.

Example rating_good (avg_days : option Q) :
  Scorecard.rating (Some 90%Q) (Some 8%Q) avg_days = "Good".
Proof. by destruct avg_days. Qed.

Example rating_poor (avg_days : option Q) :
  Scorecard.rating (Some 80%Q) (Some 20%Q) avg_days = "Poor".
Proof. by destruct avg_days. Qed.

Lemma scorecard_row_of_total (m : Scorecard.metrics) : ∃ r, Scorecard.row_of m = Ok r.
Proof.
  unfold Scorecard.row_of.
  repeat match goal with
         | |- context [rbind (Sql.pct ?a ?b) _] =>
             let E := fresh "E" in
             destruct (pct_total a b) as [? E]; rewrite E; simpl
         end.
  by eexists.
Qed.

Lemma scorecard_row_of_ok (m : Scorecard.metrics) (r : Scorecard.t) :
  Scorecard.row_of m = Ok r → 100 ≤ Scorecard.m_total_claims m → scorecard_row_ok r.
Proof.
  unfold Scorecard.row_of. intros H Hm.
  repeat match type of H with
         | rbind ?x _ = Ok _ =>
             let E := fresh "E" in
             destruct x eqn:E; simpl in H; [|discriminate]
         end.
  injection H as <-. split; simpl; [done|]. apply rating_first_match.
Qed.

Lemma scorecard_query_total (d : store) : ∃ rows, Scorecard.query d = Ok rows.
Proof.
  unfold Scorecard.query.
  destruct (rmap_total Scorecard.row_of
              (filter (λ m, 100 ≤ Scorecard.m_total_claims m) (Scorecard.payer_metrics d))
              scorecard_row_of_total) as [out ->].
  simpl. by eexists.
Qed.

Lemma scorecard_query_rows (d : store) (rows : list Scorecard.t) :
  Scorecard.query d = Ok rows → Forall scorecard_row_ok rows.
Proof.
  unfold Scorecard.query.
  destruct (rmap _ _) as [out|] eqn:E; simpl; [|discriminate].
  intros [= <-]. apply order_by_desc_Forall.
  apply rmap_Forall2 in E.
  assert (Forall (λ m, 100 ≤ Scorecard.m_total_claims m)
            (filter (λ m, 100 ≤ Scorecard.m_total_claims m) (Scorecard.payer_metrics d))) as Hk.
  { apply Forall_forall. intros m Hm. by apply list_elem_of_filter in Hm as [? _]. }
  revert Hk. induction E as [|m r ms rs Hr _ IH]; intros Hk; [constructor|].
  apply Forall_cons in Hk as [Hm Hk]. constructor; [by eapply scorecard_row_of_ok|auto].
Qed.

(** C4.  On a usable connection to a store that answers the query,
    [payer_performance_analysis] returns rows that all have
    [total_claims] ≥ 100 and whose [performance_rating] is the first match
    of the ordered rules Excellent, Good, Fair, else Poor. *)
Theorem payer_rows_qualify_and_rate_by_first_match (e : env) (w : world) :
  usable w = true → failing e QPayers = false →
  ∃ rows w', payer_performance_analysis e w = (Ok rows, w') ∧
             Forall scorecard_row_ok rows.
Proof.
  intros Hu Hf. destruct (scorecard_query_total (db e)) as [rows Hrows].
  pose proof (scorecard_query_rows _ _ Hrows) as Hall.
  unfold payer_performance_analysis, bind, ret, logger.
  rewrite (execute_query_returns _ _ _ _ rows); [|exact Hu|done|done].
  by eexists _, _.
Qed.

Lemma payer_rows_qualify_and_rate_by_first_match_witness :
  ∃ rows w', payer_performance_analysis (Sample.env_of Sample.busy_payer 3)
               Sample.connected = (Ok rows, w') ∧
             Forall scorecard_row_ok rows.
Proof.
  apply (payer_rows_qualify_and_rate_by_first_match
           (Sample.env_of Sample.busy_payer 3) Sample.connected);
    reflexivity.
Defined.

Example busy_payer_is_excellent :
  (payer_performance_analysis (Sample.env_of Sample.busy_payer 3) Sample.connected).1 =
  Ok [ {| Scorecard.payer_name := "Acme"; Scorecard.payer_type := "Commercial";
          Scorecard.total_claims := 100; Scorecard.total_payments := Some 9600%Q;
          Scorecard.reimbursement_rate := Some 96%Q;
          Scorecard.denial_rate := Some 0%Q;
          Scorecard.clean_claim_rate := Some 100%Q;
          Scorecard.avg_days_to_payment := Some 20%Q;
          Scorecard.performance_rating := "Excellent" |} ].
Proof. vm_compute. reflexivity. Qed.

(** ** ORDER BY ... DESC *)

Lemma desc_no_smaller (x y : option Q) : Sql.desc x y = true ↔ no_smaller x y.
Proof.
  destruct x as [a|], y as [b|]; simpl; try done.
  apply Qle_bool_iff.
Qed.

#[global] Instance desc_by_total {A} (key : A → option Q) : Total (Sql.desc_by key).
Proof.
  intros r1 r2. unfold Sql.desc_by. rewrite !desc_no_smaller.
  destruct (key r1) as [a|], (key r2) as [b|]; simpl; auto.
  destruct (Qlt_le_dec a b); [right; by apply Qlt_le_weak | by left].
Qed.

#[global] Instance desc_by_transitive {A} (key : A → option Q) :
  Transitive (Sql.desc_by key).
Proof.
  intros r1 r2 r3. unfold Sql.desc_by. rewrite !desc_no_smaller.
  destruct (key r1) as [a|], (key r2) as [b|], (key r3) as [c|]; simpl; try done.
  intros ??. by eapply Qle_trans.
Qed.

Lemma StronglySorted_lookup_lt {A} (R : relation A) (l : list A) (i j : nat) (x y : A) :
  StronglySorted R l → (i < j)%nat → l !! i = Some x → l !! j = Some y → R x y.
Proof.
  intros Hs. revert i j. induction Hs as [|a l Hs IH Hall]; intros i j Hij Hi Hj.
  - by rewrite lookup_nil in Hi.
  - destruct j as [|j]; [lia|]. simpl in Hj. destruct i as [|i]; simpl in Hi.
    + injection Hi as <-. eapply Forall_forall; [exact Hall|].
      by eapply list_elem_of_lookup_2.
    + eapply IH; [|done..]. lia.
Qed.

Lemma order_by_desc_non_increasing {A} (key : A → option Q) (rows : list A) :
  non_increasing (key <$> Sql.order_by_desc key rows).
Proof.
  intros i j x y Hij Hi Hj.
  apply list_lookup_fmap_Some in Hi as (ri & -> & Hi).
  apply list_lookup_fmap_Some in Hj as (rj & -> & Hj).
  apply desc_no_smaller.
  eapply (StronglySorted_lookup_lt (Sql.desc_by key)); [|done..].
  apply StronglySorted_merge_sort; apply _.
Qed.

(** ** Keys and joins *)

Lemma remove_dups_NoDup {A} `{EqDecision A} (l : list A) :
  NoDup l → remove_dups l = l.
Proof.
  induction 1 as [|x l Hx _ IH]; simpl; [done|].
  destruct (decide_rel (∈) x l); [done|]. by rewrite IH.
Qed.

Lemma omap_id_Some {A B} (f : B → A) (g : list B) :
  omap id ((λ r, Some (f r)) <$> g) = f <$> g.
Proof. induction g as [|r g IH]; [done|]. csimpl. by rewrite IH. Qed.

Lemma count_Some {A B} (f : B → A) (g : list B) :
  Sql.count ((λ r, Some (f r)) <$> g) = Z.of_nat (length g).
Proof. unfold Sql.count. by rewrite omap_id_Some, length_fmap. Qed.

Lemma count_distinct_NoDup {A B} `{EqDecision A} (f : B → A) (g : list B) :
  NoDup (f <$> g) →
  Sql.count_distinct ((λ r, Some (f r)) <$> g) = Z.of_nat (length g).
Proof.
  intros Hnd. unfold Sql.count_distinct.
  by rewrite omap_id_Some, remove_dups_NoDup, length_fmap.
Qed.

(** A key selects at most one row. *)
Lemma filter_key_at_most_one {A} (key : A → Z) (k : Z) (l : list A) :
  NoDup (key <$> l) → (length (filter (λ x, key x = k) l) ≤ 1)%nat.
Proof.
  induction l as [|x l IH]; simpl; [lia|].
  intros [Hx Hl]%NoDup_cons. rewrite filter_cons.
  destruct (decide (key x = k)) as [Hk|]; [|auto].
  destruct (filter (λ y, key y = k) l) as [|y ys] eqn:E; [simpl; lia|].
  exfalso. assert (y ∈ filter (λ y, key y = k) l) as Hy by (rewrite E; left).
  apply list_elem_of_filter in Hy as [Hyk Hy]. apply Hx.
  rewrite Hk, <- Hyk. by apply list_elem_of_fmap_2.
Qed.

(** A join that pairs each row with at most one partner keeps a sublist. *)
Lemma bind_at_most_one_sublist {A B} (l : list A) (f : A → list B) (g : B → A) :
  (∀ a, (length (f a) ≤ 1)%nat) → (∀ a b, b ∈ f a → g b = a) →
  (g <$> (l ≫= f)) `sublist_of` l.
Proof.
  intros Hlen Hg. induction l as [|a l IH]; [done|].
  rewrite bind_cons, fmap_app.
  change (a :: l) with ([a] ++ l)%list. apply sublist_app; [|done].
  specialize (Hlen a). specialize (Hg a).
  destruct (f a) as [|b [|]]; simpl in *; [apply sublist_nil_l| |lia].
  rewrite (Hg b); [done|]. apply list_elem_of_here.
Qed.

Lemma joined_at_most_one (d : store) (dn : Denial.t) :
  NoDup (Claim.claim_id <$> claims d) → NoDup (Payer.payer_id <$> payers d) →
  (length (c ← filter (λ c, Claim.claim_id c = Denial.claim_id dn) (claims d);
           p ← filter (λ p, Payer.payer_id p = Claim.payer_id c) (payers d);
           [(dn, c, p)]) ≤ 1)%nat.
Proof.
  intros Hc Hp.
  pose proof (filter_key_at_most_one Claim.claim_id (Denial.claim_id dn) _ Hc) as H1.
  destruct (filter _ (claims d)) as [|c [|]]; simpl in *; [lia| |lia].
  pose proof (filter_key_at_most_one Payer.payer_id (Claim.payer_id c) _ Hp) as H2.
  destruct (filter _ (payers d)) as [|p [|]]; simpl in *; lia.
Qed.

Lemma joined_denials_sublist (d : store) :
  NoDup (Claim.claim_id <$> claims d) → NoDup (Payer.payer_id <$> payers d) →
  (DenialPattern.den <$> DenialPattern.joined d) `sublist_of` denials d.
Proof.
  intros Hc Hp. unfold DenialPattern.joined.
  apply bind_at_most_one_sublist.
  - intros dn. by apply joined_at_most_one.
  - intros dn r Hr.
    apply list_elem_of_bind in Hr as (c & Hr & _).
    apply list_elem_of_bind in Hr as (p & Hr & _).
    by apply list_elem_of_singleton in Hr as ->.
Qed.

(** ** The denial patterns *)

Lemma group_by_elem_of {A K} `{EqDecision K} (key : A → K) (rows : list A)
    (k : K) (g : list A) :
  (k, g) ∈ Sql.group_by key rows → g = filter (λ r, key r = k) rows.
Proof.
  unfold Sql.group_by. intros (k' & [= -> ->] & _)%list_elem_of_fmap. done.
Qed.

Lemma denial_aggregate_total (k : string * string * string)
    (g : list (Denial.t * Claim.t * Payer.t)) :
  ∃ r, DenialPattern.aggregate k g = Ok r.
Proof.
  unfold DenialPattern.aggregate.
  repeat match goal with
         | |- context [rbind (Sql.pct ?a ?b) _] =>
             let E := fresh "E" in
             destruct (pct_total a b) as [? E]; rewrite E; simpl
         end.
  by eexists.
Qed.

Lemma denial_aggregate_count (k : string * string * string)
    (g : list (Denial.t * Claim.t * Payer.t)) (r : DenialPattern.t) :
  DenialPattern.aggregate k g = Ok r →
  DenialPattern.denial_count r =
    Sql.count_distinct ((λ x, Some (Denial.denial_id (DenialPattern.den x))) <$> g).
Proof.
  unfold DenialPattern.aggregate. intros H.
  repeat match type of H with
         | rbind ?x _ = Ok _ =>
             let E := fresh "E" in
             destruct x eqn:E; simpl in H; [|discriminate]
         end.
  by injection H as <-.
Qed.

Lemma denial_query_total (d : store) (n : Z) : ∃ rows, DenialPattern.query d n = Ok rows.
Proof.
  unfold DenialPattern.query.
  match goal with
  | |- context [rmap ?f ?l] =>
      destruct (rmap_total f l) as [out ->];
        [intros kg; apply denial_aggregate_total|]
  end.
  simpl. by eexists.
Qed.

Lemma denial_query_sorted (d : store) (n : Z) (rows : list DenialPattern.t) :
  DenialPattern.query d n = Ok rows →
  non_increasing (DenialPattern.total_denied <$> rows).
Proof.
  unfold DenialPattern.query.
  destruct (rmap _ _) as [out|]; simpl; [|discriminate].
  intros [= <-]. apply order_by_desc_non_increasing.
Qed.

(** Without any assumption on the keys, a row stands for at least five
    joined denial rows; with keys, these are five distinct denials. *)
Lemma denial_query_counts (d : store) (n : Z) (rows : list DenialPattern.t) :
  keys_unique d = true →
  DenialPattern.query d n = Ok rows →
  Forall (λ r, 5 ≤ DenialPattern.denial_count r) rows.
Proof.
  unfold keys_unique. rewrite !andb_true_iff, !bool_decide_eq_true.
  intros [[Hd Hc] Hp]. unfold DenialPattern.query.
  destruct (rmap _ _) as [out|] eqn:E; simpl; [|discriminate].
  intros [= <-]. apply order_by_desc_Forall.
  apply rmap_Forall2 in E.
  set (rows0 := filter _ (DenialPattern.joined d)) in E.
  assert (NoDup ((λ x, Denial.denial_id (DenialPattern.den x)) <$> rows0)) as Hnd.
  { eapply sublist_NoDup; [exact Hd|].
    rewrite (list_fmap_compose DenialPattern.den Denial.denial_id).
    apply fmap_sublist. etrans; [|by apply joined_denials_sublist].
    apply fmap_sublist, sublist_filter. }
  match type of E with
  | Forall2 _ ?kept _ =>
      assert (Forall (λ kg, kg ∈ Sql.group_by DenialPattern.group_key rows0 ∧
                       5 ≤ Sql.count ((λ r, Some (Denial.denial_id (DenialPattern.den r)))
                                      <$> kg.2)) kept) as Hk
  end.
  { apply Forall_forall. intros kg Hkg.
    apply list_elem_of_filter in Hkg as [? ?]. done. }
  revert Hk. induction E as [|[k g] r ks rs Hr _ IH]; intros Hk; [constructor|].
  apply Forall_cons in Hk as [[Hin H5] Hk]. constructor; [|auto].
  simpl in *. rewrite (denial_aggregate_count _ _ _ Hr).
  apply group_by_elem_of in Hin as ->.
  rewrite count_Some in H5. rewrite count_distinct_NoDup; [done|].
  eapply sublist_NoDup; [exact Hnd|]. apply fmap_sublist, sublist_filter.
Qed.



Example denied_patterns_by_amount :
  match (analyze_denial_patterns (Sample.env_of Sample.denied 3) 6 Sample.connected).1 with
  | Ok rows =>
      (λ r, (DenialPattern.denial_reason_code r, DenialPattern.denial_count r,
             DenialPattern.total_denied r)) <$> rows
  | Raise _ => []
  end = [ ("CO-97", 5, Some 1500%Q); ("CO-16", 5, Some 500%Q) ].
Proof. vm_compute. reflexivity. Qed.

(** ** Effects of the methods *)

Lemma usable_logged (w : world) (extra : list (level * string)) :
  usable (logged w extra) = usable w.
Proof. reflexivity. Qed.

Lemma logged_logged (w : world) (x y : list (level * string)) :
  logged (logged w x) y = logged w (x ++ y).
Proof. unfold logged. simpl. by rewrite <- (assoc_L (++)%list). Qed.

Lemma logger_logged (l : level) (msg : string) (w : world) :
  logger l msg w = (Ok (), logged w [(l, msg)]).
Proof. reflexivity. Qed.

(** Runs the next statement of a method whose world is [logged]. *)
Ltac step_logger := rewrite logger_logged; lazy beta iota; rewrite ?logged_logged.

(** ** Revenue leakage *)

Lemma bottleneck_first_match (e : Encounter.t) :
  Unbilled.bottleneck_of e = bottleneck_by_priority e.
Proof.
  unfold Unbilled.bottleneck_of, bottleneck_by_priority.
  destruct (Encounter.documentation_complete e) as [[]|],
           (Encounter.coding_complete e) as [[]|],
           (Encounter.charge_entered e) as [[]|],
           (Encounter.claim_generated e) as [[]|]; reflexivity.
Qed.

Lemma unbilled_rows (d : store) (r : Unbilled.t) :
  r ∈ Sql.order_by_desc Unbilled.expected_charge
        (Unbilled.row_of (current_date d) <$>
           filter (λ e, Unbilled.selected (current_date d) e = true) (encounters d)) →
  ∃ e, e ∈ encounters d ∧ Unbilled.selected (current_date d) e = true ∧
       r = Unbilled.row_of (current_date d) e.
Proof.
  rewrite order_by_desc_elem_of.
  intros (e & -> & [Hsel He]%list_elem_of_filter)%list_elem_of_fmap.
  by exists e.
Qed.

Lemma underpayment_query_total (d : store) : ∃ rows, Underpayment.query d = Ok rows.
Proof.
  unfold Underpayment.query.
  match goal with
  | |- context [rmap ?f ?l] => destruct (rmap_total f l) as [out ->]
  end.
  - intros cp. unfold Underpayment.row_of.
    destruct (pct_total (Underpayment.variance_of cp.1) (Underpayment.expected_of cp.1))
      as [vp ->].
    simpl. by eexists.
  - simpl. by eexists.
Qed.

(** On a usable connection to a store that answers the three queries the
    method returns the three tables and logs the total. *)
Lemma identify_revenue_leakage_returns (e : env) (w : world) :
  usable w = true →
  failing e QUnbilled = false → failing e QUnderpayments = false →
  failing e QOldAr = false →
  ∃ leak,
    Unbilled.query (db e) = Ok (unbilled_encounters leak) ∧
    Underpayment.query (db e) = Ok (underpayments leak) ∧
    OldAr.query (db e) = Ok (old_ar leak) ∧
    identify_revenue_leakage e w =
      (Ok leak,
       logged w [ (INFO, "Identifying revenue leakage opportunities");
                  (INFO, "Total revenue leakage identified: $" +:+
                         Fmt.money (Some (total_leakage leak))) ]).
Proof.
  intros Hu H1 H2 H3.
  destruct (underpayment_query_total (db e)) as [under Hunder].
  eexists {| unbilled_encounters := _; underpayments := under; old_ar := _ |}.
  simpl. split; [reflexivity|]. split; [exact Hunder|]. split; [reflexivity|].
  unfold identify_revenue_leakage, bind, ret. step_logger.
  rewrite (execute_query_returns e QUnbilled Unbilled.query (logged w _) _ Hu H1 eq_refl).
  lazy beta iota.
  rewrite (execute_query_returns e QUnderpayments Underpayment.query (logged w _) under Hu H2 Hunder).
  lazy beta iota.
  rewrite (execute_query_returns e QOldAr OldAr.query (logged w _) _ Hu H3 eq_refl).
  lazy beta iota. by step_logger.
Qed.

(** C6.  On a usable connection to a store that answers the three
    leakage queries, every unbilled row returned by
    [identify_revenue_leakage] carries the label of the first check that
    fails, in the order documentation, coding, charge entry, claim
    generation; with documentation and coding both incomplete the label is
    'Missing Documentation'. *)
Theorem bottleneck_follows_priority (e : env) (w : world) :
  usable w = true →
  failing e QUnbilled = false → failing e QUnderpayments = false →
  failing e QOldAr = false →
  ∃ leak w', identify_revenue_leakage e w = (Ok leak, w') ∧
             Forall (labelled_by_priority (db e)) (unbilled_encounters leak).
Proof.
  intros Hu H1 H2 H3.
  destruct (identify_revenue_leakage_returns e w Hu H1 H2 H3)
    as (leak & Hq & _ & _ & Hrun).
  exists leak; eexists. split; [exact Hrun|].
  injection Hq as <-. apply Forall_forall. intros r Hr.
  apply unbilled_rows in Hr as (enc & Hin & _ & ->).
  exists enc. split; [done|]. split; [done|]. simpl. rewrite bottleneck_first_match.
  split; [done|]. unfold bottleneck_by_priority. by intros -> _.
Qed.

Lemma bottleneck_follows_priority_witness :
  ∃ leak w', identify_revenue_leakage (Sample.env_of Sample.unbilled 3)
               Sample.connected = (Ok leak, w') ∧
             Forall (labelled_by_priority Sample.unbilled) (unbilled_encounters leak).
Proof.
  apply (bottleneck_follows_priority (Sample.env_of Sample.unbilled 3) Sample.connected);
    reflexivity.
Defined.

Example unbilled_labels :
  match (identify_revenue_leakage (Sample.env_of Sample.unbilled 3) Sample.connected).1 with
  | Ok leak =>
      (λ r, (Unbilled.encounter_id r, Unbilled.bottleneck r)) <$> unbilled_encounters leak
  | Raise _ => []
  end = [ (1, Some "Missing Documentation"); (2, Some "Coding Incomplete");
          (3, Some "Charges Not Entered"); (4, Some "Claim Not Generated");
          (5, Some "Claim Not Generated") ].
Proof. vm_compute. reflexivity. Qed.

(** C10.  On a usable connection to a store that answers the three
    leakage queries, every unbilled row returned by
    [identify_revenue_leakage] has a bottleneck label: the rows are those
    whose claim is not generated, so the last branch of the CASE applies
    when no earlier one does. *)
Theorem bottleneck_never_null (e : env) (w : world) :
  usable w = true →
  failing e QUnbilled = false → failing e QUnderpayments = false →
  failing e QOldAr = false →
  ∃ leak w', identify_revenue_leakage e w = (Ok leak, w') ∧
             Forall (λ r, is_Some (Unbilled.bottleneck r)) (unbilled_encounters leak).
Proof.
  intros Hu H1 H2 H3.
  destruct (identify_revenue_leakage_returns e w Hu H1 H2 H3)
    as (leak & Hq & _ & _ & Hrun).
  exists leak; eexists. split; [exact Hrun|].
  injection Hq as <-. apply Forall_forall. intros r Hr.
  apply unbilled_rows in Hr as (enc & _ & Hsel & ->). simpl.
  unfold Unbilled.selected in Hsel. apply andb_true_iff in Hsel as [_ Hgen].
  unfold Unbilled.bottleneck_of.
  destruct (Encounter.claim_generated enc) as [[]|]; try discriminate.
  destruct (Encounter.documentation_complete enc) as [[]|],
           (Encounter.coding_complete enc) as [[]|],
           (Encounter.charge_entered enc) as [[]|]; by eexists.
Qed.

Lemma bottleneck_never_null_witness :
  ∃ leak w', identify_revenue_leakage (Sample.env_of Sample.unbilled 3)
               Sample.connected = (Ok leak, w') ∧
             Forall (λ r, is_Some (Unbilled.bottleneck r)) (unbilled_encounters leak).
Proof.
  apply (bottleneck_never_null (Sample.env_of Sample.unbilled 3) Sample.connected);
    reflexivity.
Defined.

(** ** The total leakage *)

Lemma series_sum_from (acc : Q) (l : list Q) :
  (foldl Sql.nadd acc l == acc + foldr Qplus 0 l)%Q.
Proof.
  revert acc. induction l as [|x l IH]; intros acc; simpl; [lra|].
  rewrite IH. unfold Sql.nadd. rewrite Qred_correct. lra.
Qed.

(** [Series.sum()] is the sum of the values present. *)
Lemma series_sum_category_total (column : list (option Q)) :
  (series_sum column == category_total column)%Q.
Proof.
  unfold series_sum, category_total. rewrite series_sum_from. lra.
Qed.

Lemma total_leakage_sum (leak : leakage) :
  (total_leakage leak ==
     category_total (Unbilled.expected_charge <$> unbilled_encounters leak) +
     category_total (Underpayment.variance <$> underpayments leak) +
     category_total (OldAr.outstanding <$> old_ar leak))%Q.
Proof.
  unfold total_leakage, Sql.nadd.
  rewrite !Qred_correct, !series_sum_category_total. reflexivity.
Qed.

Lemma leakage_total_line_in_report (start_date end_date : string) (generated : datetime)
    (metrics : metrics_dict) (denial_rows : list DenialPattern.t) (leak : leakage)
    (payer_rows : list Scorecard.t) :
  ("TOTAL LEAKAGE: $" +:+ Fmt.money (Some (total_leakage leak))) ∈
    Report.lines start_date end_date generated metrics denial_rows leak payer_rows.
Proof.
  unfold Report.lines. rewrite !elem_of_app. right. right. left.
  unfold Report.leakage_block.
  change ("TOTAL LEAKAGE: $" +:+ Fmt.money (Some (total_leakage leak)))
    with (Report.leakage_total_line leak).
  repeat first [ apply list_elem_of_here | apply list_elem_of_further ].
Qed.



(** The worked example: 10,000 + 1,500 + 25,000 = 36,500. *)
Example worked_leakage_total :
  total_leakage Sample.worked_leakage = 36500%Q ∧
  Report.leakage_total_line Sample.worked_leakage = "TOTAL LEAKAGE: $36,500.00".
Proof. split; reflexivity. Qed.

(** ** A run and what it reads *)

Lemma runs_as_ret {A} (a : A) : runs_as (ret a) (Ok a).
Proof. intros w _. exists []. unfold ret, logged. rewrite app_nil_r. by destruct w. Qed.

Lemma runs_as_logger (l : level) (msg : string) : runs_as (logger l msg) (Ok ()).
Proof. intros w _. by eexists. Qed.

Lemma runs_as_bind {A B} (m : M A) (k : A → M B) (r : result A) (rk : A → result B) :
  runs_as m r → (∀ a, r = Ok a → runs_as (k a) (rk a)) →
  runs_as (bind m k) (rbind r rk).
Proof.
  intros Hm Hk w Hu. unfold bind. destruct (Hm w Hu) as [x ->].
  destruct r as [a|err]; simpl; [|by eexists].
  destruct (Hk a eq_refl (logged w x) Hu) as [y ->].
  rewrite logged_logged. by eexists.
Qed.

Lemma runs_as_execute_query {A} (e : env) (q : query_id) (run : store → result A) :
  runs_as (execute_query e q run) (answer e q run).
Proof.
  intros w Hu. unfold execute_query, answer. rewrite Hu. simpl.
  destruct (failing e q); simpl.
  - by eexists.
  - destruct (run (db e)); [|by eexists].
    exists []. unfold logged. rewrite app_nil_r. by destruct w.
Qed.

(** A line of log before a method, and after it. *)
Lemma runs_as_log_before {A} (l : level) (msg : string) (m : M A) (r : result A) :
  runs_as m r → runs_as (logger l msg ;ₘ m) r.
Proof.
  intros Hm. apply (runs_as_bind _ _ (Ok ()) (λ _, r)); [apply runs_as_logger|auto].
Qed.

Lemma runs_as_log_after {A} (m : M A) (r : result A) (k : A → M A) :
  runs_as m r → (∀ a, runs_as (k a) (Ok a)) → runs_as (bind m k) r.
Proof.
  intros Hm Hk. rewrite <- (rbind_Ok r). apply runs_as_bind; auto.
Qed.

Lemma runs_as_metrics (e : env) (s f : string) :
  runs_as (calculate_revenue_metrics e s f) (metrics_of e s f).
Proof.
  unfold calculate_revenue_metrics, metrics_of.
  apply runs_as_log_before.
  apply runs_as_bind; [apply runs_as_execute_query|]. intros rows _.
  destruct rows as [|r rows]; apply runs_as_log_before, runs_as_ret.
Qed.

Lemma runs_as_denials (e : env) (n : Z) :
  runs_as (analyze_denial_patterns e n) (answer e QDenials (λ d, DenialPattern.query d n)).
Proof.
  unfold analyze_denial_patterns.
  apply runs_as_log_before.
  apply runs_as_log_after; [apply runs_as_execute_query|]. intros rows.
  apply runs_as_log_before, runs_as_ret.
Qed.

Lemma runs_as_payers (e : env) :
  runs_as (payer_performance_analysis e) (answer e QPayers Scorecard.query).
Proof.
  unfold payer_performance_analysis.
  apply runs_as_log_before.
  apply runs_as_log_after; [apply runs_as_execute_query|]. intros rows.
  apply runs_as_log_before, runs_as_ret.
Qed.

Lemma runs_as_leakage (e : env) :
  runs_as (identify_revenue_leakage e) (leakage_of e).
Proof.
  unfold identify_revenue_leakage, leakage_of.
  apply runs_as_log_before.
  apply runs_as_bind; [apply runs_as_execute_query|]. intros unbilled _.
  apply runs_as_bind; [apply runs_as_execute_query|]. intros under _.
  apply runs_as_bind; [apply runs_as_execute_query|]. intros old _.
  apply runs_as_log_before, runs_as_ret.
Qed.

Lemma runs_as_analyses (e : env) (s f : string) :
  runs_as
    (metrics ←ₘ calculate_revenue_metrics e s f ;
     denial_rows ←ₘ analyze_denial_patterns e 6 ;
     leak ←ₘ identify_revenue_leakage e ;
     payer_rows ←ₘ payer_performance_analysis e ;
     ret (Report.compose s f (now e) metrics denial_rows leak payer_rows))
    (analyses_of e s f).
Proof.
  unfold analyses_of.
  apply runs_as_bind; [apply runs_as_metrics|]. intros metrics _.
  apply runs_as_bind; [apply runs_as_denials|]. intros denial_rows _.
  apply runs_as_bind; [apply runs_as_leakage|]. intros leak _.
  apply runs_as_bind; [apply runs_as_payers|]. intros payer_rows _.
  apply runs_as_ret.
Qed.

(** ** The executive summary *)

Lemma connect_reachable (e : env) (w : world) :
  reachable e = true →
  connect e w =
    (Ok (), logged {| connection := Some (next_conn w);
                      open_conns := {[ next_conn w ]} ∪ open_conns w;
                      next_conn := S (next_conn w);
                      log := log w |}
                   [ (INFO, "Database connection established") ]).
Proof. intros Hr. unfold connect. by rewrite Hr. Qed.

Lemma connect_unreachable (e : env) (w : world) :
  reachable e = false →
  connect e w = (Raise ConnectionError, logged w [ (ERROR, "Connection failed") ]).
Proof. intros Hr. unfold connect. by rewrite Hr. Qed.

(** After a successful [connect] the summary is what the analyses give,
    raised errors included, and the connection is released. *)
Lemma summary_reachable (e : env) (s f : string) (w : world) :
  reachable e = true →
  ∃ final, generate_executive_summary e s f w = (analyses_of e s f, final) ∧
           released w final.
Proof.
  intros Hr. unfold generate_executive_summary.
  unfold bind at 1. rewrite logger_logged. lazy beta iota.
  unfold bind at 1. rewrite (connect_reachable e _ Hr). lazy beta iota.
  set (w1 := logged _ [ (INFO, "Database connection established") ]).
  assert (usable w1 = true) as Hu.
  { unfold usable, w1. simpl. apply bool_decide_eq_true. set_solver. }
  unfold try_finally.
  destruct (runs_as_analyses e s f w1 Hu) as [extra ->].
  unfold disconnect. lazy beta iota zeta.
  change (connection (logged w1 extra)) with (Some (next_conn w)).
  lazy beta iota. rewrite logger_logged.
  eexists. split; [reflexivity|]. unfold released. simpl. split; [done|]. split.
  - intros [_ Hn]%elem_of_difference. apply Hn. by apply elem_of_singleton.
  - by rewrite last_snoc.
Qed.

Lemma summary_unreachable (e : env) (s f : string) (w : world) :
  reachable e = false →
  (generate_executive_summary e s f w).1 = Raise ConnectionError.
Proof.
  intros Hr. unfold generate_executive_summary.
  unfold bind at 1. rewrite logger_logged. lazy beta iota.
  unfold bind at 1. by rewrite (connect_unreachable e _ Hr).
Qed.

(** The text of a run is a function of the store, the failures of the
    store, the window and the clock. *)
Lemma summary_result (e : env) (s f : string) (w : world) :
  (generate_executive_summary e s f w).1 = summary_of e s f.
Proof.
  unfold summary_of. destruct (reachable e) eqn:Hr.
  - by destruct (summary_reachable e s f w Hr) as (final & -> & _).
  - by apply summary_unreachable.
Qed.

(** C9.  Whenever [connect] succeeds, whatever the four analyses do (a
    query that raises, an invalid date, a store that fails), the call ends
    with the connection opened by [connect] closed: [disconnect] ran last
    and the driver no longer holds the connection. *)
Theorem connection_released_on_every_path (e : env) (s f : string) (w : world) :
  reachable e = true →
  released w (generate_executive_summary e s f w).2.
Proof.
  intros Hr. by destruct (summary_reachable e s f w Hr) as (final & -> & ?).
Qed.

Lemma connection_released_on_every_path_witness :
  (generate_executive_summary (Sample.failing_denials Sample.regular)
     "2024-01-01" "2024-03-31" Sample.fresh).1 = Raise QueryError ∧
  released Sample.fresh
    (generate_executive_summary (Sample.failing_denials Sample.regular)
       "2024-01-01" "2024-03-31" Sample.fresh).2.
Proof.
  split; [reflexivity|].
  apply (connection_released_on_every_path (Sample.failing_denials Sample.regular)
           "2024-01-01" "2024-03-31" Sample.fresh).
  reflexivity.
Defined.




(** * Further properties of the code *)

(** ** The connection *)

(** X1.  When the store cannot be reached, [generate_executive_summary]
    raises the connection error after logging it: no query is sent,
    [disconnect] is not called, and the connection of the object and the
    connections of the driver are as before. *)
Theorem summary_stops_when_connect_fails (e : env) (s f : string) (w : world) :
  reachable e = false →
  generate_executive_summary e s f w =
    (Raise ConnectionError,
     logged w [ (INFO, "Generating executive summary");
                (ERROR, "Connection failed") ]).
Proof.
  intros Hr. unfold generate_executive_summary.
  unfold bind at 1. rewrite logger_logged. lazy beta iota.
  unfold bind at 1. rewrite (connect_unreachable e _ Hr).
  by rewrite logged_logged.
Qed.

Lemma summary_stops_when_connect_fails_witness :
  generate_executive_summary (Sample.unreachable Sample.regular)
    "2024-01-01" "2024-03-31" Sample.fresh =
    (Raise ConnectionError,
     logged Sample.fresh [ (INFO, "Generating executive summary");
                           (ERROR, "Connection failed") ]).
Proof.
  apply (summary_stops_when_connect_fails (Sample.unreachable Sample.regular)
           "2024-01-01" "2024-03-31" Sample.fresh).
  reflexivity.
Defined.

(** X2.  [disconnect] never raises; on an object that has no connection
    it changes nothing; after it the connection of the object is not
    usable; and a second [disconnect] closes nothing more. *)
Theorem disconnect_is_safe_and_idempotent (w : world) :
  (disconnect w).1 = Ok () ∧
  (connection w = None → disconnect w = (Ok (), w)) ∧
  usable (disconnect w).2 = false ∧
  open_conns (disconnect (disconnect w).2).2 = open_conns (disconnect w).2.
Proof.
  unfold disconnect, usable. destruct w as [[h|] o n l]; simpl.
  - split; [done|]. split; [done|]. split.
    + apply bool_decide_eq_false. intros [_ Hn]%elem_of_difference.
      apply Hn. by apply elem_of_singleton.
    + apply set_eq. intros x. rewrite !elem_of_difference. tauto.
  - done.
Qed.

Lemma execute_query_unusable {A} (e : env) (q : query_id) (run : store → result A)
    (w : world) :
  usable w = false →
  execute_query e q run w =
    (Raise QueryError, logged w [ (ERROR, "Query execution failed") ]).
Proof. intros Hu. unfold execute_query. by rewrite Hu. Qed.

(** X3.  Every analysis needs an open connection: on an object that never
    connected, or whose connection is closed, each of the four analyses
    raises at its first query. *)
Theorem analyses_need_open_connection (e : env) (s f : string) (n : Z) (w : world) :
  usable w = false →
  (calculate_revenue_metrics e s f w).1 = Raise QueryError ∧
  (analyze_denial_patterns e n w).1 = Raise QueryError ∧
  (identify_revenue_leakage e w).1 = Raise QueryError ∧
  (payer_performance_analysis e w).1 = Raise QueryError.
Proof.
  intros Hu.
  unfold calculate_revenue_metrics, analyze_denial_patterns,
    identify_revenue_leakage, payer_performance_analysis.
  repeat split; unfold bind at 1; rewrite logger_logged; lazy beta iota;
    unfold bind at 1; by rewrite execute_query_unusable.
Qed.

Lemma analyses_need_open_connection_witness :
  (calculate_revenue_metrics (Sample.env_of Sample.regular 3)
     "2024-01-01" "2024-03-31" Sample.fresh).1 = Raise QueryError ∧
  (analyze_denial_patterns (Sample.env_of Sample.regular 3) 6 Sample.fresh).1
    = Raise QueryError ∧
  (identify_revenue_leakage (Sample.env_of Sample.regular 3) Sample.fresh).1
    = Raise QueryError ∧
  (payer_performance_analysis (Sample.env_of Sample.regular 3) Sample.fresh).1
    = Raise QueryError.
Proof.
  apply (analyses_need_open_connection (Sample.env_of Sample.regular 3)
           "2024-01-01" "2024-03-31" 6 Sample.fresh).
  reflexivity.
Defined.

Lemma connection_released_after (e : env) (s f : string) (w : world) :
  reachable e = true → released w (generate_executive_summary e s f w).2.
Proof.
  intros Hr. by destruct (summary_reachable e s f w Hr) as (final & -> & ?).
Qed.

(** X4.  [generate_executive_summary] leaves the object with the
    connection it closed: an analysis called on the object afterwards
    raises, until [connect] is called again, which makes the object usable
    whatever its state was. *)
Theorem object_unusable_after_summary (e : env) (s f s' f' : string) (w : world) :
  reachable e = true →
  (calculate_revenue_metrics e s' f' (generate_executive_summary e s f w).2).1
    = Raise QueryError ∧
  usable (connect e (generate_executive_summary e s f w).2).2 = true.
Proof.
  intros Hr. split.
  - apply (analyses_need_open_connection e s' f' 6).
    destruct (connection_released_after e s f w Hr) as (Hc & Hn & _).
    revert Hc Hn. generalize (generate_executive_summary e s f w).2.
    intros w1 Hc Hn. unfold usable. rewrite Hc. by apply bool_decide_eq_false.
  - rewrite (connect_reachable e _ Hr). unfold usable. simpl.
    apply bool_decide_eq_true, elem_of_union_l. by apply elem_of_singleton.
Qed.

Lemma object_unusable_after_summary_witness :
  (calculate_revenue_metrics (Sample.env_of Sample.regular 3) "2024-01-01" "2024-03-31"
     (generate_executive_summary (Sample.env_of Sample.regular 3)
        "2024-01-01" "2024-03-31" Sample.fresh).2).1
    = Raise QueryError ∧
  usable (connect (Sample.env_of Sample.regular 3)
            (generate_executive_summary (Sample.env_of Sample.regular 3)
               "2024-01-01" "2024-03-31" Sample.fresh).2).2 = true.
Proof.
  apply (object_unusable_after_summary (Sample.env_of Sample.regular 3)
           "2024-01-01" "2024-03-31" "2024-01-01" "2024-03-31" Sample.fresh).
  reflexivity.
Defined.

(** ** Failures of the analyses *)

Lemma runs_as_result {A} (m : M A) (r : result A) (w : world) :
  runs_as m r → usable w = true → (m w).1 = r.
Proof. intros Hm Hu. by destruct (Hm w Hu) as [extra ->]. Qed.



(** ** When the KPI query raises *)

Section days_in_ar.
Local Open Scope Q_scope.

Lemma inject_Z_zero (z : Z) : inject_Z z == 0 ↔ z = 0%Z.
Proof. unfold Qeq. simpl. lia. Qed.

Lemma per_year_zero (p : Q) (z : Z) :
  z ≠ 0%Z → Qred (Sql.nmul p 365 / inject_Z z) == 0 ↔ p == 0.
Proof.
  intros Hz. unfold Sql.nmul. rewrite !Qred_correct.
  assert (¬ inject_Z z == 0) as Hz' by (by rewrite inject_Z_zero).
  split; intros H.
  - pose proof (Qmult_div_r (p * 365) (inject_Z z) Hz') as Hd.
    rewrite H in Hd. lra.
  - unfold Qdiv. rewrite H. ring.
Qed.

(** The quotient of [days_in_ar] raises exactly when the payments of the
    window are not NULL and either the window has no length or the
    payments are zero while some receivable is open. *)
Lemma days_in_ar_raises (ar payments : option Q) (s f : Z) (err : error) :
  Kpi.days_in_ar_expr ar payments s f = Raise err ↔
  err = DivisionByZero ∧
  ∃ p, payments = Some p ∧ (f = s ∨ (p == 0 ∧ is_Some ar)).
Proof.
  unfold Kpi.days_in_ar_expr, Sql.div, Sql.mul, Sql.lift2, Sql.of_int.
  destruct payments as [p|]; simpl.
  2: { destruct ar; simpl; (split; [discriminate | by intros (_ & ? & [=] & _)]). }
  destruct (Qeq_bool (inject_Z (f - s)) 0) eqn:E; simpl.
  - apply Qeq_bool_iff in E. rewrite inject_Z_zero in E. split.
    + intros [= <-]. split; [done|]. exists p. split; [done|]. left. lia.
    + by intros [-> _].
  - assert (f - s ≠ 0)%Z as Hz.
    { intros Hz. rewrite Hz in E. discriminate. }
    destruct ar as [a|]; simpl.
    + destruct (Qeq_bool (Qred (Sql.nmul p 365 / inject_Z (f - s))) 0) eqn:E2; simpl.
      * apply Qeq_bool_iff in E2.
        pose proof (proj1 (per_year_zero p (f - s) Hz) E2) as Hp0. split.
        -- intros [= <-]. split; [done|]. exists p. split; [done|]. right. by split.
        -- by intros [-> _].
      * split; [discriminate|]. intros (_ & p' & [= <-] & [->|[Hp _]]); [lia|].
        pose proof (proj2 (per_year_zero p (f - s) Hz) Hp) as Hp0.
        apply Qeq_bool_iff in Hp0. congruence.
    + split; [discriminate|]. intros (_ & p' & [= <-] & [->|[_ [? [=]]]]). lia.
Qed.
End days_in_ar.

(** X6.  With valid dates on a usable connection to a store that answers,
    [calculate_revenue_metrics] raises only a division by zero, and it
    does so exactly when the payments of the window are not NULL and
    either start = end or the payments sum to zero while the open
    receivables are not NULL. *)
Theorem metrics_raise_exactly_on_zero_payment_rate
    (e : env) (s f : string) (ds df : Z) (w : world) (err : error) :
  Calendar.parse_date s = Some ds → Calendar.parse_date f = Some df →
  usable w = true → failing e QMetrics = false →
  (calculate_revenue_metrics e s f w).1 = Raise err ↔
  err = DivisionByZero ∧
  ∃ p, Sql.sum (Claim.paid_amount <$> Kpi.window (db e) ds df) = Some p ∧
       (df = ds ∨
        ((p == 0)%Q ∧ is_Some (Sql.sum (Kpi.outstanding <$> Kpi.open_claims (db e))))).
Proof.
  intros Hs Hf Hu Hq.
  rewrite (runs_as_result _ _ _ (runs_as_metrics e s f) Hu).
  unfold metrics_of, answer. rewrite Hq, Hs, Hf.
  rewrite <- days_in_ar_raises, <- kpi_query_raises.
  destruct (Kpi.query (db e) ds df); simpl; split; congruence.
Qed.

Lemma metrics_raise_exactly_on_zero_payment_rate_witness :
  (calculate_revenue_metrics (Sample.env_of Sample.unpaid 3)
     "2024-01-01" "2024-03-31" Sample.connected).1 = Raise DivisionByZero ↔
  DivisionByZero = DivisionByZero ∧
  ∃ p, Sql.sum (Claim.paid_amount <$> Kpi.window Sample.unpaid 19723 19813) = Some p ∧
       (19813 = 19723 ∨
        ((p == 0)%Q ∧ is_Some (Sql.sum (Kpi.outstanding <$> Kpi.open_claims Sample.unpaid)))).
Proof.
  apply (metrics_raise_exactly_on_zero_payment_rate (Sample.env_of Sample.unpaid 3)
           "2024-01-01" "2024-03-31" 19723 19813 Sample.connected DivisionByZero);
    reflexivity.
Defined.

(** ** The KPI row *)

(** The columns of the row that do not depend on a rate. *)
Lemma kpi_query_columns (d : store) (s f : Z) (r : Kpi.t) :
  Kpi.query d s f = Ok [r] →
  Kpi.total_claims r =
    Sql.count_distinct ((λ c, Some (Claim.claim_id c)) <$> Kpi.window d s f) ∧
  Kpi.paid_claims r = Sql.count_distinct (Kpi.id_when_status "PAID" <$> Kpi.window d s f) ∧
  Kpi.denied_claims r =
    Sql.count_distinct (Kpi.id_when_status "DENIED" <$> Kpi.window d s f) ∧
  Kpi.total_payments r = Sql.sum (Claim.paid_amount <$> Kpi.window d s f) ∧
  Kpi.total_ar r = Sql.sum (Kpi.outstanding <$> Kpi.open_claims d) ∧
  Kpi.ar_over_90 r =
    Sql.sum (Kpi.outstanding_over_90 (current_date d) <$> Kpi.open_claims d) ∧
  Sql.pct (Kpi.ar_over_90 r) (Kpi.total_ar r) = Ok (Kpi.ar_over_90_pct r).
Proof.
  unfold Kpi.query. intros H.
  repeat match type of H with
         | rbind ?x _ = Ok _ =>
             let E := fresh "E" in
             destruct x eqn:E; simpl in H; [|discriminate]
         end.
  injection H as <-. simpl. by repeat split.
Qed.

Lemma window_empty (d : store) (s f : Z) :
  forallb (λ c, negb (Kpi.in_window s f c)) (claims d) = true →
  Kpi.window d s f = [].
Proof.
  unfold Kpi.window. generalize (claims d). intros cs.
  induction cs as [|c cs IH]; simpl; [done|].
  intros [Hc Hcs]%andb_true_iff. rewrite filter_cons.
  destruct (decide _) as [Hin|]; [|auto].
  rewrite Hin in Hc. discriminate.
Qed.

(** A window whose start is after its end holds no claim. *)
Lemma inverted_window_empty (d : store) (s f : Z) :
  f < s → forallb (λ c, negb (Kpi.in_window s f c)) (claims d) = true.
Proof.
  intros Hfs. apply forallb_forall. intros c _. unfold Kpi.in_window.
  apply negb_true_iff, andb_false_iff.
  destruct (Z.leb_spec s (Claim.submission_date c)); [right|by left].
  apply Z.leb_gt. lia.
Qed.

(** X7.  When no claim of the store is submitted in the window (as when
    start is after end), [calculate_revenue_metrics] does not raise: it
    returns the mapping of a row with zero counts, NULL sums, NULL rates
    and NULL [days_in_ar], in which [total_ar] is still the sum over the
    open claims of the whole store. *)
Theorem window_without_claims_gives_null_row
    (e : env) (s f : string) (ds df : Z) (w : world) :
  Calendar.parse_date s = Some ds → Calendar.parse_date f = Some df →
  usable w = true → failing e QMetrics = false →
  forallb (λ c, negb (Kpi.in_window ds df c)) (claims (db e)) = true →
  ∃ r, (calculate_revenue_metrics e s f w).1 = Ok (RowDict r) ∧
       Kpi.total_claims r = 0 ∧ Kpi.paid_claims r = 0 ∧ Kpi.denied_claims r = 0 ∧
       Kpi.total_charges r = None ∧ Kpi.total_allowed r = None ∧
       Kpi.total_payments r = None ∧ Kpi.total_adjustments r = None ∧
       Kpi.avg_days_to_payment r = None ∧
       Kpi.clean_claim_rate r = None ∧ Kpi.denial_rate r = None ∧
       Kpi.net_collection_rate r = None ∧ Kpi.gross_collection_rate r = None ∧
       Kpi.days_in_ar r = None ∧
       Kpi.total_ar r = Sql.sum (Kpi.outstanding <$> Kpi.open_claims (db e)).
Proof.
  intros Hs Hf Hu Hq Hnone.
  rewrite (runs_as_result _ _ _ (runs_as_metrics e s f) Hu).
  unfold metrics_of, answer. rewrite Hq, Hs, Hf.
  unfold Kpi.query. rewrite (window_empty _ _ _ Hnone). simpl.
  match goal with
  | |- context [rbind (Sql.pct ?a ?b) _] =>
      destruct (pct_total a b) as [over ->]; simpl
  end.
  unfold Kpi.days_in_ar_expr, Sql.div. simpl.
  destruct (Sql.sum (Kpi.outstanding <$> Kpi.open_claims (db e))); simpl;
    eexists; (split; [reflexivity|]); simpl; by repeat split.
Qed.

Lemma window_without_claims_gives_null_row_witness :
  ∃ r, (calculate_revenue_metrics (Sample.env_of Sample.regular 3)
          "2024-03-31" "2024-01-01" Sample.connected).1 = Ok (RowDict r) ∧
       Kpi.total_claims r = 0 ∧ Kpi.paid_claims r = 0 ∧ Kpi.denied_claims r = 0 ∧
       Kpi.total_charges r = None ∧ Kpi.total_allowed r = None ∧
       Kpi.total_payments r = None ∧ Kpi.total_adjustments r = None ∧
       Kpi.avg_days_to_payment r = None ∧
       Kpi.clean_claim_rate r = None ∧ Kpi.denial_rate r = None ∧
       Kpi.net_collection_rate r = None ∧ Kpi.gross_collection_rate r = None ∧
       Kpi.days_in_ar r = None ∧
       Kpi.total_ar r = Sql.sum (Kpi.outstanding <$> Kpi.open_claims Sample.regular).
Proof.
  apply (window_without_claims_gives_null_row (Sample.env_of Sample.regular 3)
           "2024-03-31" "2024-01-01" 19813 19723 Sample.connected);
    reflexivity.
Defined.

(** X8.  The receivable columns do not depend on the window: two calls on
    the same store with different windows return the same [total_ar],
    [ar_over_90] and [ar_over_90_pct]. *)
Theorem receivables_ignore_the_window
    (e : env) (s1 f1 s2 f2 : string) (w1 w2 : world) (r1 r2 : Kpi.t) :
  (calculate_revenue_metrics e s1 f1 w1).1 = Ok (RowDict r1) →
  (calculate_revenue_metrics e s2 f2 w2).1 = Ok (RowDict r2) →
  Kpi.total_ar r1 = Kpi.total_ar r2 ∧
  Kpi.ar_over_90 r1 = Kpi.ar_over_90 r2 ∧
  Kpi.ar_over_90_pct r1 = Kpi.ar_over_90_pct r2.
Proof.
  intros H1 H2.
  destruct (calculate_revenue_metrics e s1 f1 w1) as [o1 w1'] eqn:E1.
  destruct (calculate_revenue_metrics e s2 f2 w2) as [o2 w2'] eqn:E2.
  simpl in *. subst o1 o2.
  apply calculate_revenue_metrics_inv in E1 as (? & ? & r1' & _ & _ & Q1 & [= <-]).
  apply calculate_revenue_metrics_inv in E2 as (? & ? & r2' & _ & _ & Q2 & [= <-]).
  apply kpi_query_columns in Q1 as (_ & _ & _ & _ & A1 & B1 & C1).
  apply kpi_query_columns in Q2 as (_ & _ & _ & _ & A2 & B2 & C2).
  assert (Kpi.total_ar r1 = Kpi.total_ar r2) as Ha by congruence.
  assert (Kpi.ar_over_90 r1 = Kpi.ar_over_90 r2) as Hb by congruence.
  rewrite Ha, Hb in C1. split; [done|]. split; [done|]. congruence.
Qed.

Lemma receivables_ignore_the_window_witness :
  ∃ r1 r2,
    (calculate_revenue_metrics (Sample.env_of Sample.regular 3)
       "2024-01-01" "2024-03-31" Sample.connected).1 = Ok (RowDict r1) ∧
    (calculate_revenue_metrics (Sample.env_of Sample.regular 3)
       "2023-01-01" "2023-12-31" Sample.connected).1 = Ok (RowDict r2) ∧
    Kpi.total_claims r1 = 2 ∧ Kpi.total_claims r2 = 0 ∧
    Kpi.total_ar r1 = Kpi.total_ar r2 ∧
    Kpi.ar_over_90 r1 = Kpi.ar_over_90 r2 ∧
    Kpi.ar_over_90_pct r1 = Kpi.ar_over_90_pct r2.
Proof.
  eexists _, _.
  split; [vm_compute; reflexivity|]. split; [vm_compute; reflexivity|].
  split; [reflexivity|]. split; [reflexivity|].
  apply (receivables_ignore_the_window (Sample.env_of Sample.regular 3)
           "2024-01-01" "2024-03-31" "2023-01-01" "2023-12-31"
           Sample.connected Sample.connected);
    vm_compute; reflexivity.
Defined.

Lemma omap_id_when_status (v : string) (cs : list Claim.t) :
  omap id (Kpi.id_when_status v <$> cs) =
  Claim.claim_id <$> filter (λ c, String.eqb (Claim.status c) v = true) cs.
Proof.
  induction cs as [|c cs IH]; [done|]. rewrite filter_cons. csimpl. rewrite IH.
  unfold Kpi.id_when_status. simpl.
  destruct (decide (String.eqb (Claim.status c) v = true)) as [E|E].
  - by rewrite E.
  - apply not_true_is_false in E. by rewrite E.
Qed.

Lemma count_status_of_keys (v : string) (cs : list Claim.t) :
  NoDup (Claim.claim_id <$> cs) →
  Sql.count_distinct (Kpi.id_when_status v <$> cs) =
  Z.of_nat (length (filter (λ c, String.eqb (Claim.status c) v = true) cs)).
Proof.
  intros Hnd. unfold Sql.count_distinct.
  rewrite omap_id_when_status, remove_dups_NoDup, length_fmap; [done|].
  eapply sublist_NoDup; [exact Hnd|]. apply fmap_sublist, sublist_filter.
Qed.

Lemma paid_and_denied_are_apart (cs : list Claim.t) :
  (length (filter (λ c, String.eqb (Claim.status c) "PAID" = true) cs) +
   length (filter (λ c, String.eqb (Claim.status c) "DENIED" = true) cs)
   ≤ length cs)%nat.
Proof.
  induction cs as [|c cs IH]; simpl; [lia|]. rewrite !filter_cons.
  destruct (decide (String.eqb (Claim.status c) "PAID" = true)) as [Hp|];
    destruct (decide (String.eqb (Claim.status c) "DENIED" = true)) as [Hd|];
    simpl; try lia.
  apply String.eqb_eq in Hp. rewrite Hp in Hd. discriminate.
Qed.

Lemma keys_unique_claims (d : store) :
  keys_unique d = true → NoDup (Claim.claim_id <$> claims d).
Proof.
  unfold keys_unique. rewrite !andb_true_iff, !bool_decide_eq_true. tauto.
Qed.



(** ** The denial patterns: rates and groups *)

Lemma count_when_nonneg (l : list Sql.tv) : 0 ≤ Sql.count_when l.
Proof. unfold Sql.count_when. lia. Qed.

Lemma count_when_le_length {A} (c : A → Sql.tv) (g : list A) :
  Sql.count_when (c <$> g) ≤ Z.of_nat (length g).
Proof.
  unfold Sql.count_when. apply Nat2Z.inj_le.
  etrans; [apply length_filter|]. by rewrite length_fmap.
Qed.

Lemma count_when_mono {A} (c1 c2 : A → Sql.tv) (g : list A) :
  (∀ x, Sql.holds (c1 x) = true → Sql.holds (c2 x) = true) →
  Sql.count_when (c1 <$> g) ≤ Sql.count_when (c2 <$> g).
Proof.
  intros Himp. unfold Sql.count_when. apply Nat2Z.inj_le.
  induction g as [|x g IH]; [done|]. rewrite !fmap_cons, !filter_cons.
  destruct (decide (Sql.holds (c1 x) = true)) as [H1|H1];
    destruct (decide (Sql.holds (c2 x) = true)) as [H2|H2];
    cbn [length]; try lia.
  exfalso. auto.
Qed.

Lemma percentage_of_counts (a b : Z) (r : option Q) :
  0 ≤ a ≤ b →
  Sql.pct (Some (Sql.of_int a)) (Some (Sql.of_int b)) = Ok r → percentage r.
Proof.
  intros Hab Hr. destruct (decide (b = 0)) as [->|Hb].
  - rewrite pct_zero_denominator in Hr by reflexivity. by injection Hr as <-.
  - eapply percentage_of_pct; [| | |exact Hr]; unfold Sql.of_int;
      change 0%Q with (inject_Z 0); rewrite <- ?Zlt_Qlt, <- ?Zle_Qle; lia.
Qed.

Lemma present_of_counts (a b : Z) (r : option Q) :
  0 ≤ a ≤ b → 0 < b →
  Sql.pct (Some (Sql.of_int a)) (Some (Sql.of_int b)) = Ok r → is_Some r.
Proof.
  intros Hab Hb Hr.
  destruct (pct_in_range (Sql.of_int a) (Sql.of_int b)) as (q & Hq & _);
    try (unfold Sql.of_int; change 0%Q with (inject_Z 0);
         rewrite <- ?Zlt_Qlt, <- ?Zle_Qle; lia).
  rewrite Hq in Hr. injection Hr as <-. by eexists.
Qed.

(** The two rates of a denial pattern and its key. *)
Lemma denial_aggregate_rates (k : string * string * string)
    (g : list (Denial.t * Claim.t * Payer.t)) (r : DenialPattern.t) :
  DenialPattern.aggregate k g = Ok r →
  percentage (DenialPattern.appeal_success_rate r) ∧
  percentage (DenialPattern.preventable_pct r) ∧
  ((0 < length g)%nat → is_Some (DenialPattern.preventable_pct r)) ∧
  (DenialPattern.denial_category r, DenialPattern.denial_reason_code r,
   DenialPattern.denial_reason_description r) = k.
Proof.
  unfold DenialPattern.aggregate. intros H.
  repeat match type of H with
         | rbind ?x _ = Ok _ =>
             let E := fresh "E" in
             destruct x eqn:E; simpl in H; [|discriminate]
         end.
  injection H as <-. simpl.
  split; [|split; [|split]].
  - eapply percentage_of_counts; [|exact E]. split; [apply count_when_nonneg|].
    apply count_when_mono. intros x. unfold DenialPattern.won, Sql.text_eq, Sql.like_prefix.
    destruct (Denial.resolution_type (DenialPattern.den x)) as [t|]; simpl; [|done].
    destruct (String.eqb t "APPEALED_WON") eqn:Et; [|done].
    apply String.eqb_eq in Et. by subst t.
  - eapply percentage_of_counts; [|exact E0]. split; [apply count_when_nonneg|].
    apply count_when_le_length.
  - intros Hg. eapply present_of_counts; [| |exact E0]; [|lia].
    split; [apply count_when_nonneg|apply count_when_le_length].
  - by destruct k as [[??]?].
Qed.

Lemma analyze_denial_patterns_inv (e : env) (n : Z) (w : world)
    (rows : list DenialPattern.t) :
  (analyze_denial_patterns e n w).1 = Ok rows →
  DenialPattern.query (db e) n = Ok rows.
Proof.
  unfold analyze_denial_patterns, bind, ret.
  rewrite logger_logged. lazy beta iota.
  destruct (execute_query _ _ _ _) as [[rows0|] w1] eqn:Eq; [|discriminate].
  apply execute_query_inv in Eq as [Eq _]. rewrite logger_logged.
  by intros [= <-].
Qed.

Lemma denial_query_rates (d : store) (n : Z) (rows : list DenialPattern.t) :
  DenialPattern.query d n = Ok rows →
  Forall (λ r, percentage (DenialPattern.appeal_success_rate r) ∧
               is_Some (DenialPattern.preventable_pct r) ∧
               percentage (DenialPattern.preventable_pct r)) rows.
Proof.
  unfold DenialPattern.query.
  destruct (rmap _ _) as [out|] eqn:Er; simpl; [|discriminate].
  intros [= <-]. apply order_by_desc_Forall.
  apply rmap_Forall2 in Er.
  match type of Er with
  | Forall2 _ ?kept _ =>
      assert (Forall (λ kg, (0 < length kg.2)%nat) kept) as Hk
  end.
  { apply Forall_forall. intros kg [H5 _]%list_elem_of_filter.
    rewrite count_Some in H5. lia. }
  revert Hk. induction Er as [|[k g] r ks rs Hr _ IH]; intros Hk; [constructor|].
  apply Forall_cons in Hk as [Hg Hk]. constructor; [|auto].
  destruct (denial_aggregate_rates _ _ _ Hr) as (Ha & Hp & Hs & _).
  split; [done|]. split; [by apply Hs|done].
Qed.

(** X10.  In every row that [analyze_denial_patterns] returns,
    [appeal_success_rate] is NULL or in [0,100], and [preventable_pct] is
    present and in [0,100]. *)
Theorem denial_rates_are_percentages (e : env) (lookback_months : Z) (w : world)
    (rows : list DenialPattern.t) :
  (analyze_denial_patterns e lookback_months w).1 = Ok rows →
  Forall (λ r, percentage (DenialPattern.appeal_success_rate r) ∧
               is_Some (DenialPattern.preventable_pct r) ∧
               percentage (DenialPattern.preventable_pct r)) rows.
Proof.
  intros H%analyze_denial_patterns_inv. by eapply denial_query_rates.
Qed.

Lemma denial_rates_are_percentages_witness :
  ∃ rows, (analyze_denial_patterns (Sample.env_of Sample.denied 3) 6
             Sample.connected).1 = Ok rows ∧
          length rows = 2%nat ∧
          Forall (λ r, percentage (DenialPattern.appeal_success_rate r) ∧
                       is_Some (DenialPattern.preventable_pct r) ∧
                       percentage (DenialPattern.preventable_pct r)) rows.
Proof.
  eexists. split; [vm_compute; reflexivity|]. split; [reflexivity|].
  apply (denial_rates_are_percentages (Sample.env_of Sample.denied 3) 6
           Sample.connected).
  vm_compute. reflexivity.
Defined.

Lemma Forall2_fmap_eq {A B C} (f : A → C) (g : B → C) (l : list A) (k : list B) :
  Forall2 (λ x y, f x = g y) l k → f <$> l = g <$> k.
Proof. induction 1 as [|x y l k Hxy _ IH]; [done|]. csimpl. by rewrite Hxy, IH. Qed.

Lemma group_by_keys {A K} `{EqDecision K} (key : A → K) (rows : list A) :
  (Sql.group_by key rows).*1 = remove_dups (key <$> rows).
Proof.
  unfold Sql.group_by. generalize (remove_dups (key <$> rows)). intros ks.
  induction ks as [|k ks IH]; [done|]. csimpl. by rewrite IH.
Qed.

Lemma denial_query_keys (d : store) (n : Z) (rows : list DenialPattern.t) :
  DenialPattern.query d n = Ok rows →
  NoDup ((λ r, (DenialPattern.denial_category r, DenialPattern.denial_reason_code r,
                DenialPattern.denial_reason_description r)) <$> rows).
Proof.
  unfold DenialPattern.query.
  destruct (rmap _ _) as [out|] eqn:Er; simpl; [|discriminate].
  intros [= <-]. unfold Sql.order_by_desc. rewrite merge_sort_Permutation.
  apply rmap_Forall2 in Er.
  match type of Er with
  | Forall2 _ ?kept _ =>
      rewrite <- (Forall2_fmap_eq fst
                    (λ r, (DenialPattern.denial_category r,
                           DenialPattern.denial_reason_code r,
                           DenialPattern.denial_reason_description r)) kept out)
  end.
  - eapply sublist_NoDup; [|apply fmap_sublist, sublist_filter].
    rewrite group_by_keys. apply NoDup_remove_dups.
  - eapply Forall2_impl; [exact Er|]. intros [k g] r Hr. simpl in *.
    by destruct (denial_aggregate_rates _ _ _ Hr) as (_ & _ & _ & ->).
Qed.

(** X11.  [analyze_denial_patterns] returns one row per group: no two
    rows have the same category, reason code and reason description. *)
Theorem one_row_per_denial_reason (e : env) (lookback_months : Z) (w : world)
    (rows : list DenialPattern.t) :
  (analyze_denial_patterns e lookback_months w).1 = Ok rows →
  NoDup ((λ r, (DenialPattern.denial_category r, DenialPattern.denial_reason_code r,
                DenialPattern.denial_reason_description r)) <$> rows).
Proof.
  intros H%analyze_denial_patterns_inv. by eapply denial_query_keys.
Qed.

Lemma one_row_per_denial_reason_witness :
  ∃ rows, (analyze_denial_patterns (Sample.env_of Sample.denied 3) 6
             Sample.connected).1 = Ok rows ∧
          length rows = 2%nat ∧
          NoDup ((λ r, (DenialPattern.denial_category r,
                        DenialPattern.denial_reason_code r,
                        DenialPattern.denial_reason_description r)) <$> rows).
Proof.
  eexists. split; [vm_compute; reflexivity|]. split; [reflexivity|].
  apply (one_row_per_denial_reason (Sample.env_of Sample.denied 3) 6 Sample.connected).
  vm_compute. reflexivity.
Defined.

(** ** The payer scorecard: order, rates and ratings *)

Lemma payer_performance_analysis_inv (e : env) (w : world) (rows : list Scorecard.t) :
  (payer_performance_analysis e w).1 = Ok rows → Scorecard.query (db e) = Ok rows.
Proof.
  unfold payer_performance_analysis, bind, ret.
  rewrite logger_logged. lazy beta iota.
  destruct (execute_query _ _ _ _) as [[rows0|] w1] eqn:Eq; [|discriminate].
  apply execute_query_inv in Eq as [Eq _]. rewrite logger_logged.
  by intros [= <-].
Qed.

Lemma scorecard_query_sorted (d : store) (rows : list Scorecard.t) :
  Scorecard.query d = Ok rows → non_increasing (Scorecard.total_payments <$> rows).
Proof.
  unfold Scorecard.query.
  destruct (rmap _ _) as [out|]; simpl; [|discriminate].
  intros [= <-]. apply order_by_desc_non_increasing.
Qed.

(** The rating of a row, at its edges. *)
Lemma rating_edges (reimbursement denial avg_days : option Q) :
  (reimbursement = None → rating_by_rules reimbursement denial avg_days = "Poor") ∧
  (avg_days = None → rating_by_rules reimbursement denial avg_days ≠ "Excellent") ∧
  rating_by_rules reimbursement denial avg_days ∈ ["Excellent"; "Good"; "Fair"; "Poor"].
Proof.
  unfold rating_by_rules, at_least, at_most.
  split; [by intros ->|]. split.
  - intros ->. destruct reimbursement as [r|], denial as [d|]; simpl;
      repeat match goal with
             | |- context [Qle_bool ?x ?y] => destruct (Qle_bool x y); simpl
             end; discriminate.
  - destruct reimbursement as [r|], denial as [d|], avg_days as [a|]; simpl;
      repeat match goal with
             | |- context [Qle_bool ?x ?y] => destruct (Qle_bool x y); simpl
             end;
      repeat first [ apply list_elem_of_here | apply list_elem_of_further ].
Qed.



Lemma filter_all {A} (P : A → Prop) `{∀ x, Decision (P x)} (l : list A) :
  Forall P l → filter P l = l.
Proof.
  induction 1 as [|x l Hx _ IH]; [done|]. by rewrite filter_cons, decide_True, IH.
Qed.

Lemma filter_none {A} (P : A → Prop) `{∀ x, Decision (P x)} (l : list A) :
  Forall (λ x, ¬ P x) l → filter P l = [].
Proof.
  induction 1 as [|x l Hx _ IH]; [done|]. by rewrite filter_cons, decide_False.
Qed.

(** The claims joined to one payer, in the order of the claims. *)
Lemma payer_claims_sublist (d : store) (p : Payer.t) (cutoff : Z) :
  (snd <$> (c ← filter (λ c, Claim.payer_id c = Payer.payer_id p) (claims d);
            if decide (cutoff ≤ Claim.submission_date c) then [(p, c)] else []))
  `sublist_of` claims d.
Proof.
  etrans; [|apply (sublist_filter (λ c, Claim.payer_id c = Payer.payer_id p))].
  generalize (filter (λ c, Claim.payer_id c = Payer.payer_id p) (claims d)).
  intros cs. induction cs as [|c cs IH]; [done|].
  rewrite bind_cons, fmap_app. change (c :: cs) with ([c] ++ cs)%list.
  apply sublist_app; [|done].
  destruct (decide _); simpl; [done|apply sublist_nil_l].
Qed.

Lemma payer_claims_payer (d : store) (p : Payer.t) (cutoff : Z) (r : Payer.t * Claim.t) :
  r ∈ (c ← filter (λ c, Claim.payer_id c = Payer.payer_id p) (claims d);
       if decide (cutoff ≤ Claim.submission_date c) then [(p, c)] else []) →
  r.1 = p.
Proof.
  intros (c & Hr & _)%list_elem_of_bind.
  destruct (decide _); [|by apply elem_of_nil in Hr].
  by apply list_elem_of_singleton in Hr as ->.
Qed.

(** With payers identified by [payer_id], the claims of a group are a
    sublist of the claims of the store. *)
Lemma scorecard_group_claims (d : store) (k : Z * string * string) :
  NoDup (Payer.payer_id <$> payers d) →
  (snd <$> filter (λ r, Scorecard.group_key r = k) (Scorecard.joined d))
  `sublist_of` claims d.
Proof.
  unfold Scorecard.joined.
  generalize (Calendar.minus_months (current_date d) 12). intros cutoff.
  generalize (payers d). intros ps Hnd.
  induction ps as [|p ps IH]; [apply sublist_nil_l|].
  apply NoDup_cons in Hnd as [Hp Hnd]. rewrite bind_cons, filter_app, fmap_app.
  destruct (decide ((Payer.payer_id p, Payer.payer_name p, Payer.payer_type p) = k))
    as [Hk|Hk].
  - rewrite (filter_none _ (ps ≫= _)), app_nil_r.
    + rewrite filter_all; [apply payer_claims_sublist|].
      apply Forall_forall. intros r Hr%payer_claims_payer.
      unfold Scorecard.group_key. by rewrite Hr.
    + apply Forall_forall. intros r (p' & Hr & Hp')%list_elem_of_bind.
      apply payer_claims_payer in Hr. unfold Scorecard.group_key. rewrite Hr, <- Hk.
      intros [= Hid _ _]. apply Hp. rewrite <- Hid. by apply list_elem_of_fmap_2.
  - rewrite filter_none; [by apply IH|].
    apply Forall_forall. intros r Hr%payer_claims_payer.
    unfold Scorecard.group_key. by rewrite Hr.
Qed.

Lemma payer_metrics_counts (d : store) :
  keys_unique d = true →
  Forall (λ m, 0 ≤ Scorecard.m_denials m ≤ Scorecard.m_total_claims m ∧
               0 ≤ Scorecard.m_clean_claims m ≤ Scorecard.m_total_claims m)
         (Scorecard.payer_metrics d).
Proof.
  unfold keys_unique. rewrite !andb_true_iff, !bool_decide_eq_true.
  intros [[_ Hc] Hp]. unfold Scorecard.payer_metrics.
  apply Forall_fmap, Forall_forall. intros [k g] Hkg. simpl.
  apply group_by_elem_of in Hkg as ->.
  rewrite (count_distinct_NoDup Claim.claim_id).
  - split; split; first [apply count_when_nonneg | apply count_when_le_length].
  - eapply sublist_NoDup; [exact Hc|]. by apply fmap_sublist, scorecard_group_claims.
Qed.

Lemma scorecard_row_rates (m : Scorecard.metrics) (r : Scorecard.t) :
  Scorecard.row_of m = Ok r →
  0 ≤ Scorecard.m_denials m ≤ Scorecard.m_total_claims m →
  0 ≤ Scorecard.m_clean_claims m ≤ Scorecard.m_total_claims m →
  0 < Scorecard.m_total_claims m →
  is_Some (Scorecard.denial_rate r) ∧ percentage (Scorecard.denial_rate r) ∧
  is_Some (Scorecard.clean_claim_rate r) ∧ percentage (Scorecard.clean_claim_rate r).
Proof.
  unfold Scorecard.row_of. intros H Hd Hc Ht.
  repeat match type of H with
         | rbind ?x _ = Ok _ =>
             let E := fresh "E" in
             destruct x eqn:E; simpl in H; [|discriminate]
         end.
  injection H as <-. simpl. split; [|split; [|split]].
  - eapply present_of_counts; [exact Hd|exact Ht|exact E0].
  - eapply percentage_of_counts; [exact Hd|exact E0].
  - eapply present_of_counts; [exact Hc|exact Ht|exact E1].
  - eapply percentage_of_counts; [exact Hc|exact E1].
Qed.

Lemma scorecard_query_rates (d : store) (rows : list Scorecard.t) :
  keys_unique d = true → Scorecard.query d = Ok rows →
  Forall (λ r, is_Some (Scorecard.denial_rate r) ∧ percentage (Scorecard.denial_rate r) ∧
               is_Some (Scorecard.clean_claim_rate r) ∧
               percentage (Scorecard.clean_claim_rate r)) rows.
Proof.
  intros Hk. unfold Scorecard.query.
  destruct (rmap _ _) as [out|] eqn:E; simpl; [|discriminate].
  intros [= <-]. apply order_by_desc_Forall.
  apply rmap_Forall2 in E.
  match type of E with
  | Forall2 _ ?kept _ =>
      assert (Forall (λ m, (0 ≤ Scorecard.m_denials m ≤ Scorecard.m_total_claims m ∧
                            0 ≤ Scorecard.m_clean_claims m ≤ Scorecard.m_total_claims m) ∧
                           100 ≤ Scorecard.m_total_claims m) kept) as Hkept
  end.
  { apply Forall_forall. intros m [H100 Hm]%list_elem_of_filter. split; [|done].
    pose proof (payer_metrics_counts d Hk) as Hall.
    by eapply Forall_forall in Hall. }
  revert Hkept. induction E as [|m r ms rs Hr _ IH]; intros Hkept; [constructor|].
  apply Forall_cons in Hkept as [[[Hd Hc] H100] Hkept]. constructor; [|auto].
  eapply scorecard_row_rates; [done..|lia].
Qed.

(** X13.  When the identifiers are keys, every row that
    [payer_performance_analysis] returns has a [denial_rate] and a
    [clean_claim_rate] that are present and in [0,100]. *)
Theorem payer_count_rates_are_percentages (e : env) (w : world)
    (rows : list Scorecard.t) :
  keys_unique (db e) = true →
  (payer_performance_analysis e w).1 = Ok rows →
  Forall (λ r, is_Some (Scorecard.denial_rate r) ∧ percentage (Scorecard.denial_rate r) ∧
               is_Some (Scorecard.clean_claim_rate r) ∧
               percentage (Scorecard.clean_claim_rate r)) rows.
Proof.
  intros Hk H%payer_performance_analysis_inv. by eapply scorecard_query_rates.
Qed.

Lemma payer_count_rates_are_percentages_witness :
  ∃ rows, (payer_performance_analysis (Sample.env_of Sample.busy_payer 3)
             Sample.connected).1 = Ok rows ∧
    length rows = 1%nat ∧
    Forall (λ r, is_Some (Scorecard.denial_rate r) ∧ percentage (Scorecard.denial_rate r) ∧
                 is_Some (Scorecard.clean_claim_rate r) ∧
                 percentage (Scorecard.clean_claim_rate r)) rows.
Proof.
  eexists. split; [vm_compute; reflexivity|]. split; [reflexivity|].
  apply (payer_count_rates_are_percentages (Sample.env_of Sample.busy_payer 3)
           Sample.connected);
    vm_compute; reflexivity.
Defined.

(** ** The leakage tables *)

Lemma Forall2_transfer {A B} (R : A → B → Prop) (P : A → Prop) (Q : B → Prop)
    (l : list A) (k : list B) :
  Forall2 R l k → Forall P l → (∀ x y, R x y → P x → Q y) → Forall Q k.
Proof.
  intros H HP Himp. induction H as [|x y l k Hxy _ IH]; [constructor|].
  apply Forall_cons in HP as [Hx HP]. constructor; eauto.
Qed.

Lemma identify_revenue_leakage_inv (e : env) (w : world) (leak : leakage) :
  (identify_revenue_leakage e w).1 = Ok leak →
  Unbilled.query (db e) = Ok (unbilled_encounters leak) ∧
  Underpayment.query (db e) = Ok (underpayments leak) ∧
  OldAr.query (db e) = Ok (old_ar leak).
Proof.
  unfold identify_revenue_leakage, bind, ret.
  rewrite logger_logged. lazy beta iota.
  destruct (execute_query e QUnbilled _ _) as [[u|] w1] eqn:E1; [|discriminate].
  apply execute_query_inv in E1 as [E1 ->].
  destruct (execute_query e QUnderpayments _ _) as [[p|] w2] eqn:E2; [|discriminate].
  apply execute_query_inv in E2 as [E2 ->].
  destruct (execute_query e QOldAr _ _) as [[o|] w3] eqn:E3; [|discriminate].
  apply execute_query_inv in E3 as [E3 ->].
  rewrite logger_logged. by intros [= <-].
Qed.

(** X14.  The unbilled encounters that [identify_revenue_leakage] returns
    are between 7 and 90 days old and in non-increasing order of
    [expected_charge] (a NULL charge first). *)
Theorem unbilled_rows_aged_7_to_90_days (e : env) (w : world) (leak : leakage) :
  (identify_revenue_leakage e w).1 = Ok leak →
  non_increasing (Unbilled.expected_charge <$> unbilled_encounters leak) ∧
  Forall (λ r, 7 ≤ Unbilled.days_unbilled r ≤ 90) (unbilled_encounters leak).
Proof.
  intros (Hq & _ & _)%identify_revenue_leakage_inv.
  injection Hq as <-. split; [apply order_by_desc_non_increasing|].
  apply Forall_forall. intros r (enc & _ & Hsel & ->)%unbilled_rows. simpl.
  unfold Unbilled.selected in Hsel.
  apply andb_true_iff in Hsel as [[H1 H2]%andb_true_iff _]. lia.
Qed.

Lemma unbilled_rows_aged_7_to_90_days_witness :
  ∃ leak, (identify_revenue_leakage (Sample.env_of Sample.unbilled 3)
             Sample.connected).1 = Ok leak ∧
    length (unbilled_encounters leak) = 5%nat ∧
    non_increasing (Unbilled.expected_charge <$> unbilled_encounters leak) ∧
    Forall (λ r, 7 ≤ Unbilled.days_unbilled r ≤ 90) (unbilled_encounters leak).
Proof.
  eexists. split; [vm_compute; reflexivity|]. split; [reflexivity|].
  apply (unbilled_rows_aged_7_to_90_days (Sample.env_of Sample.unbilled 3)
           Sample.connected).
  vm_compute. reflexivity.
Defined.

Lemma old_ar_rows (d : store) (r : OldAr.t) :
  r ∈ Sql.order_by_desc OldAr.outstanding
        (OldAr.row_of (current_date d) <$>
           filter (λ c, OldAr.selected (current_date d) c = true) (claims d)) →
  ∃ c, c ∈ claims d ∧ OldAr.selected (current_date d) c = true ∧
       r = OldAr.row_of (current_date d) c.
Proof.
  rewrite order_by_desc_elem_of.
  intros (c & -> & [Hsel Hc]%list_elem_of_filter)%list_elem_of_fmap.
  by exists c.
Qed.

Lemma holds_gt (x : option Q) (t : Q) :
  Sql.holds (Sql.gt x (Some t)) = true → ∃ v, x = Some v ∧ (t < v)%Q.
Proof.
  destruct x as [v|]; simpl; [|discriminate].
  destruct (Qle_bool v t) eqn:E; simpl; [discriminate|]. intros _.
  exists v. split; [done|]. apply Qnot_le_lt. intros Hle.
  apply Qle_bool_iff in Hle. congruence.
Qed.

(** X15.  The aged receivables that [identify_revenue_leakage] returns
    are claims that are neither paid nor written off, submitted more than
    90 days ago, with a positive outstanding amount, in non-increasing
    order of that amount. *)
Theorem old_ar_rows_open_aged_and_owed (e : env) (w : world) (leak : leakage) :
  (identify_revenue_leakage e w).1 = Ok leak →
  non_increasing (OldAr.outstanding <$> old_ar leak) ∧
  Forall (λ r, 90 < OldAr.days_outstanding r ∧ positive (OldAr.outstanding r) ∧
               OldAr.status r ≠ "PAID" ∧ OldAr.status r ≠ "WRITTEN_OFF")
         (old_ar leak).
Proof.
  intros (_ & _ & Hq)%identify_revenue_leakage_inv.
  injection Hq as <-. split; [apply order_by_desc_non_increasing|].
  apply Forall_forall. intros r (c & _ & Hsel & ->)%old_ar_rows. simpl.
  unfold OldAr.selected in Hsel.
  apply andb_true_iff in Hsel as [[Ho Hd]%andb_true_iff Hp].
  apply holds_gt in Hp as (v & -> & Hv). simpl.
  unfold Kpi.is_open in Ho. apply negb_true_iff, orb_false_iff in Ho as [Hpaid Hwo].
  apply String.eqb_neq in Hpaid, Hwo. repeat split; try done. lia.
Qed.

Lemma old_ar_rows_open_aged_and_owed_witness :
  ∃ leak, (identify_revenue_leakage (Sample.env_of Sample.aged 3)
             Sample.connected).1 = Ok leak ∧
    length (old_ar leak) = 2%nat ∧
    non_increasing (OldAr.outstanding <$> old_ar leak) ∧
    Forall (λ r, 90 < OldAr.days_outstanding r ∧ positive (OldAr.outstanding r) ∧
                 OldAr.status r ≠ "PAID" ∧ OldAr.status r ≠ "WRITTEN_OFF")
           (old_ar leak).
Proof.
  eexists. split; [vm_compute; reflexivity|]. split; [reflexivity|].
  apply (old_ar_rows_open_aged_and_owed (Sample.env_of Sample.aged 3) Sample.connected).
  vm_compute. reflexivity.
Defined.

Lemma payment_variance_claims (d : store) (cp : Claim.t * Payer.t) :
  cp ∈ Underpayment.payment_variance d →
  cp.1 ∈ claims d ∧ Underpayment.selected (current_date d) cp.1 = true.
Proof.
  unfold Underpayment.payment_variance.
  intros (c & (p & Hcp & _)%list_elem_of_bind &
          [Hsel Hc]%list_elem_of_filter)%list_elem_of_bind.
  by apply list_elem_of_singleton in Hcp as ->.
Qed.

Lemma underpayment_rows (d : store) (rows : list Underpayment.t) :
  Underpayment.query d = Ok rows → Forall (from_claim d) rows.
Proof.
  unfold Underpayment.query.
  destruct (rmap _ _) as [out|] eqn:E; simpl; [|discriminate].
  intros [= <-]. apply order_by_desc_Forall.
  apply rmap_Forall2 in E.
  eapply (Forall2_transfer _
            (λ cp, cp ∈ Underpayment.payment_variance d ∧
                   Sql.holds (Sql.gt (Sql.abs (Underpayment.variance_of cp.1))
                                     (Some 10%Q)) = true));
    [exact E| |].
  - apply Forall_forall. intros cp [Hv Hcp]%list_elem_of_filter. done.
  - intros cp r Hr [[Hc Hsel]%payment_variance_claims Hv].
    unfold Underpayment.row_of in Hr.
    destruct (Sql.pct _ _) as [vp|]; simpl in Hr; [|discriminate].
    injection Hr as <-. exists cp.1. simpl. repeat split; try done.
    unfold Underpayment.selected in Hsel.
    apply andb_true_iff in Hsel as [[Hst _]%andb_true_iff _].
    by apply String.eqb_eq.
Qed.



Lemma NoDup_fmap_inj_on {A B} (f : A → B) (l : list A) (x y : A) :
  NoDup (f <$> l) → x ∈ l → y ∈ l → f x = f y → x = y.
Proof.
  induction l as [|a l IH]; [by intros _ ?%elem_of_nil|].
  rewrite fmap_cons. intros [Ha Hl]%NoDup_cons Hx Hy Hxy.
  apply elem_of_cons in Hx as [->|Hx]; apply elem_of_cons in Hy as [->|Hy];
    [done| | |by apply IH].
  - exfalso. apply Ha. rewrite Hxy. by apply list_elem_of_fmap_2.
  - exfalso. apply Ha. rewrite <- Hxy. by apply list_elem_of_fmap_2.
Qed.



(** ** The report: what it prints of the tables *)

Lemma head_indexed_lookup {A} (rows : list A) (i : nat) (row : A) :
  rows !! i = Some row → (i < 5)%nat →
  (Z.of_nat i, row) ∈ Report.head_indexed rows.
Proof.
  intros Hi H5. unfold Report.head_indexed.
  apply (list_elem_of_lookup_2 _ i). apply lookup_zip_with_Some.
  exists (Z.of_nat i), row. split; [done|]. split.
  - rewrite list_lookup_fmap, lookup_seq_lt; [done|].
    rewrite length_take. apply lookup_lt_Some in Hi. lia.
  - by rewrite lookup_take_lt.
Qed.




(** ** Analyses whose divisions are all guarded *)

Lemma answer_total {A} (e : env) (q : query_id) (run : store → result A) :
  failing e q = false → (∃ a, run (db e) = Ok a) → ∃ a, answer e q run = Ok a.
Proof. intros Hq [a Ha]. exists a. unfold answer. by rewrite Hq. Qed.

Lemma leakage_of_total (e : env) :
  failing e QUnbilled = false → failing e QUnderpayments = false →
  failing e QOldAr = false → ∃ leak, leakage_of e = Ok leak.
Proof.
  intros H1 H2 H3. unfold leakage_of, answer. rewrite H1, H2, H3.
  destruct (underpayment_query_total (db e)) as [under ->].
  simpl. by eexists.
Qed.



(** ** The entry point *)

(** *** Dates printed by [strftime] read back *)

Lemma all_between_spec (lo hi : Z) (P : Z → bool) (z : Z) :
  all_between lo hi P = true → lo ≤ z ≤ hi → P z = true.
Proof.
  unfold all_between. intros H Hz.
  eapply forallb_forall in H; [exact H|].
  apply list_elem_of_In, elem_of_seqZ. lia.
Qed.

Lemma text_ok_spec (width : nat) (n : Z) :
  text_ok width n = true →
  String.length (Fmt.pad_left width (pretty n)) = width ∧
  Calendar.digits_value 0 (Fmt.pad_left width (pretty n)) = Some n.
Proof.
  unfold text_ok. lazy zeta. intros [H1 H2]%andb_true_iff.
  apply Nat.eqb_eq in H1. split; [done|].
  destruct (Calendar.digits_value _ _) as [k|]; [|discriminate].
  apply Z.eqb_eq in H2. by subst.
Qed.

(** Months and days of the month, in two columns. *)
Lemma two_digits (k : Z) :
  1 ≤ k ≤ 31 →
  String.length (Fmt.pad_left 2 (pretty k)) = 2%nat ∧
  Calendar.digits_value 0 (Fmt.pad_left 2 (pretty k)) = Some k.
Proof.
  intros Hk. apply text_ok_spec.
  apply (all_between_spec 1 31); [|done]. vm_compute. reflexivity.
Qed.

Lemma digit_of_char (k : N) :
  (k < 10)%N → Calendar.digit_of (pretty_N_char k) = Some (Z.of_N k).
Proof.
  intros Hk.
  assert (k = 0 ∨ k = 1 ∨ k = 2 ∨ k = 3 ∨ k = 4 ∨ k = 5 ∨ k = 6 ∨ k = 7 ∨ k = 8 ∨ k = 9)%N
    as Hcase by lia.
  repeat destruct Hcase as [->|Hcase]; try subst k; reflexivity.
Qed.

(** Years of four digits. *)
Lemma four_digits (y : Z) :
  1000 ≤ y ≤ 9999 →
  String.length (Fmt.pad_left 4 (pretty y)) = 4%nat ∧
  Calendar.digits_value 0 (Fmt.pad_left 4 (pretty y)) = Some y.
Proof.
  intros Hy. destruct y as [|p|p]; try lia.
  unfold pretty, pretty_Z, pretty, pretty_positive, pretty, pretty_N.
  destruct (decide (N.pos p = 0%N)) as [|_]; [done|].
  set (x := N.pos p). assert (1000 ≤ x ≤ 9999)%N as Hx by (unfold x; lia).
  assert (Z.pos p = Z.of_N x) as -> by done. clearbody x. clear p Hy.
  rewrite (pretty_N_go_step x) by lia.
  rewrite (pretty_N_go_step (N.div x 10)) by (zify; Z.div_mod_to_equations; lia).
  rewrite (pretty_N_go_step (N.div (N.div x 10) 10))
    by (zify; Z.div_mod_to_equations; lia).
  rewrite (pretty_N_go_step (N.div (N.div (N.div x 10) 10) 10))
    by (zify; Z.div_mod_to_equations; lia).
  assert (N.div (N.div (N.div (N.div x 10) 10) 10) 10 = 0%N) as ->
    by (zify; Z.div_mod_to_equations; lia).
  rewrite pretty_N_go_0.
  unfold Fmt.pad_left.
  match goal with
  | |- context [Fmt.repeat_string ?k "0" +:+ ?s] =>
      change (Fmt.repeat_string k "0" +:+ s) with s
  end.
  cbn [String.length Calendar.digits_value].
  split; [done|].
  rewrite !digit_of_char by (apply N.mod_lt; lia).
  f_equal. rewrite !N2Z.inj_mod, !N2Z.inj_div.
  change (Z.of_N 10) with 10.
  assert (1000 ≤ Z.of_N x ≤ 9999) as Hz by lia.
  generalize dependent (Z.of_N x). intros z Hz.
  Z.div_mod_to_equations. lia.
Qed.

(** A text of the shape [YYYY-MM-DD] is read field by field. *)
Lemma parse_date_text (sy sm sd : string) (y m d : Z) :
  String.length sy = 4%nat → String.length sm = 2%nat → String.length sd = 2%nat →
  Calendar.digits_value 0 sy = Some y →
  Calendar.digits_value 0 sm = Some m →
  Calendar.digits_value 0 sd = Some d →
  Calendar.parse_date (sy +:+ "-" +:+ sm +:+ "-" +:+ sd) =
  if Calendar.valid {| Calendar.year := y; Calendar.month := m; Calendar.day := d |}
  then Some (Calendar.days_from_civil
               {| Calendar.year := y; Calendar.month := m; Calendar.day := d |})
  else None.
Proof.
  destruct sy as [|a1 [|a2 [|a3 [|a4 [|? ?]]]]]; try discriminate.
  destruct sm as [|b1 [|b2 [|? ?]]]; try discriminate.
  destruct sd as [|c1 [|c2 [|? ?]]]; try discriminate.
  intros _ _ _ Hy Hm Hd. unfold Calendar.parse_date.
  cbv -[Calendar.digits_value Calendar.valid Calendar.days_from_civil].
  by rewrite Hy, Hm, Hd.
Qed.

Lemma valid_bounds (c : Calendar.civil) :
  Calendar.valid c = true →
  1 ≤ Calendar.month c ≤ 12 ∧ 1 ≤ Calendar.day c ≤ 31.
Proof.
  unfold Calendar.valid, Calendar.days_in_month.
  intros [[[Hm1 Hm2]%andb_true_iff Hd1]%andb_true_iff Hd2]%andb_true_iff.
  apply Z.leb_le in Hm1, Hm2, Hd1, Hd2.
  repeat match type of Hd2 with
         | context [if ?b then _ else _] => destruct b
         end; lia.
Qed.

(** [strftime('%Y-%m-%d')] of a calendar date of the years 1000 to 9999
    is read back as the day number of that date. *)
Lemma date_round_trip (c : Calendar.civil) :
  Calendar.valid c = true → 1000 ≤ Calendar.year c ≤ 9999 →
  Calendar.parse_date (strftime_date c) = Some (Calendar.days_from_civil c).
Proof.
  intros Hv Hy. destruct (valid_bounds c Hv) as [Hm Hd].
  destruct (four_digits _ Hy) as [Ly Vy].
  destruct (two_digits (Calendar.month c)) as [Lm Vm]; [lia|].
  destruct (two_digits (Calendar.day c)) as [Ld Vd]; [lia|].
  unfold strftime_date.
  rewrite (parse_date_text _ _ _ _ _ _ Ly Lm Ld Vy Vm Vd).
  destruct c as [y m d]. cbn [Calendar.year Calendar.month Calendar.day].
  by rewrite Hv.
Qed.

Ltac split_tests :=
  repeat match goal with
         | |- context [if ?b then _ else _] =>
             let E := fresh "E" in
             destruct b eqn:E;
             [first [apply Z.leb_le in E | apply Z.ltb_lt in E]
             |first [apply Z.leb_gt in E | apply Z.ltb_ge in E]]
         end.

(** The day numbers of the years 1001 to 9999. *)
Lemma days_from_civil_bounds (c : Calendar.civil) :
  Calendar.valid c = true → 1001 ≤ Calendar.year c ≤ 9999 →
  -353920 ≤ Calendar.days_from_civil c ≤ 2932896.
Proof.
  intros Hv Hy. destruct (valid_bounds c Hv) as [Hm Hd].
  destruct c as [y m d]. cbn [Calendar.year Calendar.month Calendar.day] in *.
  unfold Calendar.days_from_civil. cbv zeta.
  cbn [Calendar.year Calendar.month Calendar.day].
  split_tests; Z.div_mod_to_equations; lia.
Qed.

Lemma civil_from_days_fields (n : Z) :
  -354285 ≤ n ≤ 2932896 →
  Calendar.days_from_civil (Calendar.civil_from_days n) = n ∧
  1000 ≤ Calendar.year (Calendar.civil_from_days n) ≤ 9999 ∧
  1 ≤ Calendar.month (Calendar.civil_from_days n) ≤ 12 ∧
  1 ≤ Calendar.day (Calendar.civil_from_days n).
Proof.
  intros Hn. unfold Calendar.days_from_civil, Calendar.civil_from_days. cbv zeta.
  cbn [Calendar.year Calendar.month Calendar.day].
  split_tests; Z.div_mod_to_equations; lia.
Qed.

(** The day of the month that [civil_from_days] computes exists in its
    month, leap years included. *)
Lemma civil_from_days_day (n : Z) :
  -354285 ≤ n ≤ 2932896 →
  Calendar.day (Calendar.civil_from_days n) ≤
  Calendar.days_in_month (Calendar.year (Calendar.civil_from_days n))
                         (Calendar.month (Calendar.civil_from_days n)).
Proof.
  intros Hn. destruct (civil_from_days_fields n Hn) as (_ & _ & Hm & _).
  revert Hm. unfold Calendar.civil_from_days. cbv zeta.
  cbn [Calendar.year Calendar.month Calendar.day].
  set (z := n + 719468). set (era := z / 146097). set (doe := z - era * 146097).
  set (yoe := (doe - doe / 1460 + doe / 36524 - doe / 146096) / 365).
  set (doy := doe - (365 * yoe + yoe / 4 - yoe / 100)).
  set (mp := (5 * doy + 2) / 153).
  set (m := if mp <? 10 then mp + 3 else mp - 9).
  intros Hm.
  assert (m = 1 ∨ m = 2 ∨ m = 3 ∨ m = 4 ∨ m = 5 ∨ m = 6 ∨ m = 7 ∨ m = 8 ∨ m = 9 ∨
          m = 10 ∨ m = 11 ∨ m = 12) as Hcase by lia.
  unfold Calendar.days_in_month, Calendar.is_leap.
  assert (∀ k, m = k → mp = (if k <=? 2 then k + 9 else k - 3)) as Hmp.
  { intros k <-. unfold m. destruct (mp <? 10) eqn:E;
      [apply Z.ltb_lt in E|apply Z.ltb_ge in E].
    - destruct (mp + 3 <=? 2) eqn:E2; [apply Z.leb_le in E2|]; [|lia].
      assert (0 ≤ mp) by (unfold mp, doy, yoe, doe, era, z; Z.div_mod_to_equations; lia).
      lia.
    - destruct (mp - 9 <=? 2) eqn:E2; [lia|apply Z.leb_gt in E2].
      assert (mp ≤ 11) by (unfold mp, doy, yoe, doe, era, z; Z.div_mod_to_equations; lia).
      lia. }
  destruct Hcase as [H|[H|[H|[H|[H|[H|[H|[H|[H|[H|[H|H]]]]]]]]]]];
    pose proof (Hmp _ H) as Hmp'; rewrite H;
    cbn -[Z.div Z.modulo Z.mul Z.add Z.sub] in Hmp' |- *;
    clear Hmp Hm H m;
    try (subst mp doy yoe doe era z; Z.div_mod_to_equations; lia).
  destruct (_ && _) eqn:E.
  all: repeat match goal with
         | H : (_ && _) = true |- _ => apply andb_true_iff in H as [? ?]
         | H : (_ || _) = true |- _ => apply orb_true_iff in H as [?|?]
         | H : (_ && _) = false |- _ => apply andb_false_iff in H as [?|?]
         | H : (_ || _) = false |- _ => apply orb_false_iff in H as [? ?]
         | H : negb _ = true |- _ => apply negb_true_iff in H
         | H : negb _ = false |- _ => apply negb_false_iff in H
         | H : (_ =? _) = true |- _ => apply Z.eqb_eq in H
         | H : (_ =? _) = false |- _ => apply Z.eqb_neq in H
         end.
  all: subst mp doy yoe doe era z; Z.div_mod_to_equations; lia.
Qed.

(** A day number of the years 1000 to 9999 is a calendar date whose text
    is read back as the day number. *)
Lemma day_round_trip (n : Z) :
  -354285 ≤ n ≤ 2932896 →
  Calendar.valid (Calendar.civil_from_days n) = true ∧
  Calendar.days_from_civil (Calendar.civil_from_days n) = n ∧
  Calendar.parse_date (strftime_date (Calendar.civil_from_days n)) = Some n.
Proof.
  intros Hn. destruct (civil_from_days_fields n Hn) as (Hinv & Hy & Hm & Hd).
  pose proof (civil_from_days_day n Hn) as Hdim.
  assert (Calendar.valid (Calendar.civil_from_days n) = true) as Hv.
  { unfold Calendar.valid. rewrite !andb_true_iff, !Z.leb_le. lia. }
  split; [done|]. split; [done|].
  by rewrite (date_round_trip _ Hv Hy), Hinv.
Qed.

Lemma main_result (e : env) (h : host) :
  match summary_of e (strftime_date (main_start_date e)) (strftime_date (main_end_date e)) with
  | Raise err => (main e h).1 = Failed err
  | Ok _ => (main e h).1 = if outputs_writable h then Done else CannotWrite
  end.
Proof.
  rewrite <- (summary_result e _ _ (init (process h))). unfold main.
  destruct (generate_executive_summary _ _ _ _) as [[text|err] w]; simpl; [|done].
  by destruct (outputs_writable h).
Qed.

(** X21.  [main] prints the summary and then saves the same text: when it
    ends normally the text was printed once and
    [outputs/executive_summary.txt] holds exactly that text, whatever it
    held before, while no other file changed, and "Analysis complete!" is
    the last line of the log.  When the summary raises, nothing is printed
    and no file is touched.  When the file cannot be opened, the summary
    was printed all the same and no file changed. *)
Theorem main_prints_then_saves_the_summary (e : env) (h : host) :
  match (main e h).1 with
  | Done =>
      outputs_writable h = true ∧
      ∃ text,
        summary_of e (strftime_date (main_start_date e))
                     (strftime_date (main_end_date e)) = Ok text ∧
        stdout (main e h).2 = (stdout h ++ [text])%list ∧
        files (main e h).2 !! summary_path = Some text ∧
        (∀ path, path ≠ summary_path → files (main e h).2 !! path = files h !! path) ∧
        last (log (process (main e h).2)) = Some (INFO, "Analysis complete!")
  | Failed err =>
      summary_of e (strftime_date (main_start_date e))
                   (strftime_date (main_end_date e)) = Raise err ∧
      stdout (main e h).2 = stdout h ∧ files (main e h).2 = files h
  | CannotWrite =>
      outputs_writable h = false ∧
      ∃ text,
        summary_of e (strftime_date (main_start_date e))
                     (strftime_date (main_end_date e)) = Ok text ∧
        stdout (main e h).2 = (stdout h ++ [text])%list ∧
        files (main e h).2 = files h
  end.
Proof.
  rewrite <- (summary_result e _ _ (init (process h))). unfold main.
  destruct (generate_executive_summary _ _ _ _) as [[text|err] w]; simpl; [|done].
  destruct (outputs_writable h); simpl.
  - split; [done|]. exists text. repeat split.
    + apply lookup_insert_eq.
    + intros path Hp. by apply lookup_insert_ne.
    + apply last_snoc.
  - split; [done|]. by exists text.
Qed.


